(** * Load-following reactivity control of a microreactor

    A shallow embedding of the Python sources [reactor.py], [controller.py]
    and the simulation loop of [run.py].

    Numbers.  The program computes with binary floating point; here every
    number is an exact rational ([Q]), so rounding, [inf] and [nan] are
    outside the model.  Equality of numbers is [Qeq] ([==]).

    Exceptions.  A Python call either returns a value or raises; this is the
    [result] type below.  A division whose divisor is not a fixed non-zero
    literal goes through [py_div], which raises [ZeroDivisionError] on a zero
    divisor (Python scalars raise there; NumPy scalars yield [inf]/[nan],
    which the rational model has no value for).  A call that raises leaves
    no object behind: [run.py] catches nothing, so the run ends there. *)

From Stdlib Require Import QArith Qabs Qround Qminmax Lqa Lia.
From stdpp Require Import gmap strings list.

Open Scope Q_scope.

(** ** Exceptions and the error monad *)

Inductive exn : Type :=
| KeyError (key : string)
| IndexError
| ZeroDivisionError
| ValueError (msg : string).

Inductive result (A : Type) : Type :=
| Ok (a : A)
| Err (e : exn).
Arguments Ok {A} a.
Arguments Err {A} e.

#[global] Instance result_ret : MRet result := fun A a => Ok a.
#[global] Instance result_bind : MBind result := fun A B k m =>
  match m with
  | Ok a => k a
  | Err e => Err e
  end.

(** ** Python primitives *)

(** [x < y] and [x > y] on numbers, as booleans. *)
Definition Qltb (x y : Q) : bool := negb (Qle_bool y x).
Definition Qgtb (x y : Q) : bool := Qltb y x.

(** [x / y] with a divisor that may be zero. *)
Definition py_div (x y : Q) : result Q :=
  if Qeq_bool y 0 then Err ZeroDivisionError else Ok (x / y).

(** [d[key]] on a dictionary. *)
Definition dict_get (d : gmap string Q) (key : string) : result Q :=
  match d !! key with
  | Some v => Ok v
  | None => Err (KeyError key)
  end.

(** [d.get(key, dflt)]. *)
Definition dict_get_default (d : gmap string Q) (key : string) (dflt : Q) : Q :=
  default dflt (d !! key).

(** [x[i]] on an array, for a non-negative index. *)
Definition index {A : Type} (x : list A) (i : nat) : result A :=
  match x !! i with
  | Some v => Ok v
  | None => Err IndexError
  end.

(** [numpy.sign]. *)
Definition np_sign (s : Q) : Q :=
  if Qltb 0 s then 1 else if Qltb s 0 then -1 else 0.

(** ** reactor.py *)

(** [get_drum_params(num_drums)]: the tuple
    [(Rho_d0, Reactivity_per_degree, u0, W)]. *)
Definition get_drum_params (num_drums : Z) : Q * Q * Q * Q :=
  if (num_drums =? 8)%Z then
    (-0.033085599, 26.11e-5, 77.56, 0.06)
  else if (num_drums =? 4)%Z then
    (-0.033085599 + 0.013980296, 16.11e-5, 108.5, 0.1)
  else if (num_drums =? 2)%Z then
    (-0.033085599 + 0.0074, 7.33e-5, 165.5, 0.2)
  else if (num_drums =? 1)%Z then
    (-0.033085599 + 0.0071 + 0.0082, 2.77e-5, 170, 0.49)
  else
    (-0.033085599, 26.11e-5, 77.56, 0.04).

Module Reactor.

(** The fields set by [Reactor.__init__]. *)
Record t : Type := mk {
  num_drums : Z;
  params : gmap string Q;
  x : list Q
}.

Definition __init__ (num_drums : Z) (initial_state : list Q)
    (parameters : gmap string Q) : t :=
  {| num_drums := num_drums; params := parameters; x := initial_state |}.

(** The constants of [reactor_dae]. *)
Definition Sig_x : Q := 2.65e-22.
Definition yi : Q := 0.061.
Definition yx : Q := 0.002.
Definition lamda_x : Q := 2.09e-5.
Definition lamda_I : Q := 2.87e-5.
Definition Sum_f : Q := 0.3358.
Definition l : Q := 1.68e-3.
Definition beta : Q := 0.0048.
Definition beta_1 : Q := 1.42481e-4.
Definition beta_2 : Q := 9.24281e-4.
Definition beta_3 : Q := 7.79956e-4.
Definition beta_4 : Q := 2.06583e-3.
Definition beta_5 : Q := 6.71175e-4.
Definition beta_6 : Q := 2.17806e-4.
Definition Lamda_1 : Q := 1.272e-2.
Definition Lamda_2 : Q := 3.174e-2.
Definition Lamda_3 : Q := 1.160e-1.
Definition Lamda_4 : Q := 3.110e-1.
Definition Lamda_5 : Q := 1.400e+0.
Definition Lamda_6 : Q := 3.870e+0.
Definition cp_f : Q := 977.
Definition cp_m : Q := 1697.
Definition cp_c : Q := 5188.6.
Definition M_f : Q := 2002.
Definition M_m : Q := 11573.
Definition M_c : Q := 500.
Definition mu_f : Q := M_f * cp_f.
Definition mu_m : Q := M_m * cp_m.
Definition mu_c : Q := M_c * cp_c.
Definition f_f : Q := 0.96.
Definition P_0 : Q := 22e6.
Definition T_in : Q := 864.
Definition T_out : Q := 1106.
Definition Tc0 : Q := (T_in + T_out) / 2.
Definition M_dot : Q := 1.75e+1.
Definition alpha_f : Q := -2.875e-5.
Definition alpha_m : Q := -3.696e-5.
Definition alpha_c : Q := 0.0.

(** [self.num_drums in [8, 2, 1]]. *)
Definition in_8_2_1 (n : Z) : bool :=
  ((n =? 8) || (n =? 2) || (n =? 1))%Z.

(** [reactor_dae(self, t, x, u)]: the pair [(dx, rho)].  The statements
    are in the order of the source, so an exception is the first one the
    source would raise. *)
Definition reactor_dae (self : t) (t_ : Q) (x : list Q) (u : Q)
    : result (list Q * Q) :=
  Rho_d0 ← dict_get (params self) "Rho_d0";
  Reactivity_per_degree ← dict_get (params self) "Reactivity_per_degree";
  Xe0 ← dict_get (params self) "Xe0";
  I0 ← dict_get (params self) "I0";
  Pi ← dict_get (params self) "Pi";
  let Tf0 := dict_get_default (params self) "Tf0" 1105 in
  let Tm0 := dict_get_default (params self) "Tm0" 1087 in
  K_fm ← py_div (f_f * P_0) (Tf0 - Tm0);
  K_mc ← py_div P_0 (Tm0 - Tc0);
  n_r ← index x 0;
  Cr1 ← index x 1;
  Cr2 ← index x 2;
  Cr3 ← index x 3;
  Cr4 ← index x 4;
  Cr5 ← index x 5;
  Cr6 ← index x 6;
  X ← index x 7;
  I ← index x 8;
  Tf ← index x 9;
  Tm ← index x 10;
  Tc ← index x 11;
  let Rho_d1 := Rho_d0 + u * Reactivity_per_degree in
  rho ←
    (if in_8_2_1 (num_drums self) then
       Ok (Rho_d1 + alpha_f * (Tf - Tf0) + alpha_c * (Tc - Tc0) +
           alpha_m * (Tm - Tm0) - Sig_x * (X - Xe0) / Sum_f)
     else if (num_drums self =? 4)%Z then
       Ok (Rho_d1 + alpha_f * (Tf - 900.42) + alpha_c * (Tc - 888.261) +
           alpha_m * (Tm - 898.261) - Sig_x * (X - Xe0) / Sum_f)
     else Err (ValueError "Invalid number of drums specified."));
  let dx : list Q :=
    [ ((rho - beta) / l) * n_r + (beta_1 / l) * Cr1 + (beta_2 / l) * Cr2 +
        (beta_3 / l) * Cr3 + (beta_4 / l) * Cr4 + (beta_5 / l) * Cr5 +
        (beta_6 / l) * Cr6;
      Lamda_1 * n_r - Lamda_1 * Cr1;
      Lamda_2 * n_r - Lamda_2 * Cr2;
      Lamda_3 * n_r - Lamda_3 * Cr3;
      Lamda_4 * n_r - Lamda_4 * Cr4;
      Lamda_5 * n_r - Lamda_5 * Cr5;
      Lamda_6 * n_r - Lamda_6 * Cr6;
      0.002 * Sum_f * Pi + lamda_I * I - Sig_x * X * Pi - lamda_x * X;
      yi * Sum_f * Pi - lamda_I * I;
      f_f * P_0 / mu_f * n_r - K_fm / mu_f * (Tf - Tc);
      (1 - f_f) * P_0 / mu_m * n_r +
        (K_fm * (Tf - Tm) - K_mc * (Tm - Tc)) / mu_m;
      K_mc * (Tm - Tc) / mu_c - 2 * M_dot * cp_c * (Tc - T_in) / mu_c ] in
  Ok (dx, rho).

End Reactor.

(** ** controller.py *)

Module STCController.

(** The attributes of an [STCController] object. *)
Record t : Type := mk {
  lambda_ : Q;
  W : Q;
  T_C : Q;
  max_val : Q;
  min_val : Q;
  max_rate : Q;
  u : Q;
  err_prev : Q;
  t_prev : Q;
  deriv_prev : Q;
  command_sat_prev : Q;
  command_prev : Q
}.

Definition __init__ (lambda_ W T_C max_val min_val max_rate u0 : Q) : t :=
  {| lambda_ := lambda_; W := W; T_C := T_C;
     max_val := max_val; min_val := min_val; max_rate := max_rate;
     u := u0; err_prev := 0; t_prev := 0; deriv_prev := 0;
     command_sat_prev := u0; command_prev := u0 |}.

Section Update.

(** [numpy.sqrt]: the rationals have no square root, so the function is
    a parameter; what is proved holds for every choice of it. *)
Variable np_sqrt : Q -> Q.

(** [update(self, t, measurement, setpoint)]: the object after the call
    and the returned command. *)
Definition update (self : t) (t_ measurement setpoint : Q)
    : result (t * Q) :=
  let err := setpoint - measurement in
  let T := t_ - t_prev self in
  let denom :=
    if negb (Qeq_bool (T + T_C self) 0) then T + T_C self else T_C self in
  deriv_filt ←
    py_div (err - err_prev self + T_C self * deriv_prev self) denom;
  let s := err + deriv_filt in
  let u' := u self + W self * np_sign s * T in
  let command := lambda_ self * np_sqrt (Qabs s) * np_sign s + u' in
  (* Saturation limits *)
  let command_sat :=
    if Qgtb command (max_val self) then max_val self
    else if Qltb command (min_val self) then min_val self
    else command in
  (* Rate limiting *)
  let command_sat :=
    if Qgtb command_sat (command_sat_prev self + max_rate self * T)
    then command_sat_prev self + max_rate self * T
    else if Qltb command_sat (command_sat_prev self - max_rate self * T)
    then command_sat_prev self - max_rate self * T
    else command_sat in
  Ok ({| lambda_ := lambda_ self; W := W self; T_C := T_C self;
         max_val := max_val self; min_val := min_val self;
         max_rate := max_rate self;
         u := u'; err_prev := err; t_prev := t_;
         deriv_prev := deriv_filt;
         command_sat_prev := command_sat;
         command_prev := command_prev self |},
      command_sat).

End Update.

End STCController.

Module PIDController.

(** The attributes of a [PIDController] object. *)
Record t : Type := mk {
  Kp : Q;
  Ki : Q;
  Kd : Q;
  Kaw : Q;
  T_C : Q;
  max_val : Q;
  min_val : Q;
  max_rate : Q;
  integral : Q;
  err_prev : Q;
  t_prev : Q;
  deriv_prev : Q;
  command_prev : Q;
  command_sat_prev : Q
}.

Definition __init__ (Kp Ki Kd Kaw T_C max_val min_val max_rate u0 : Q) : t :=
  {| Kp := Kp; Ki := Ki; Kd := Kd; Kaw := Kaw; T_C := T_C;
     max_val := max_val; min_val := min_val; max_rate := max_rate;
     integral := u0; err_prev := 0; t_prev := 0; deriv_prev := 0;
     command_prev := u0; command_sat_prev := u0 |}.

(** [update(self, t, measurement, setpoint)]: the object after the call
    and the returned command. *)
Definition update (self : t) (t_ measurement setpoint : Q)
    : result (t * Q) :=
  let err := setpoint - measurement in
  let T_period := t_ - t_prev self in
  (* Update the integral term with anti-windup correction *)
  let integral' :=
    integral self + Ki self * err * T_period +
    Kaw self * (command_sat_prev self - command_prev self) * T_period in
  let denom :=
    if negb (Qeq_bool (T_period + T_C self) 0)
    then T_period + T_C self else T_C self in
  deriv_filt ←
    py_div (err - err_prev self + T_C self * deriv_prev self) denom;
  let command := Kp self * err + integral' + Kd self * deriv_filt in
  (* Saturation limits *)
  let command_sat :=
    if Qgtb command (max_val self) then max_val self
    else if Qltb command (min_val self) then min_val self
    else command in
  (* Rate limiting *)
  let command_sat :=
    if Qgtb command_sat (command_sat_prev self + max_rate self * T_period)
    then command_sat_prev self + max_rate self * T_period
    else if Qltb command_sat (command_sat_prev self - max_rate self * T_period)
    then command_sat_prev self - max_rate self * T_period
    else command_sat in
  Ok ({| Kp := Kp self; Ki := Ki self; Kd := Kd self; Kaw := Kaw self;
         T_C := T_C self;
         max_val := max_val self; min_val := min_val self;
         max_rate := max_rate self;
         integral := integral'; err_prev := err; t_prev := t_;
         deriv_prev := deriv_filt;
         command_prev := command;
         command_sat_prev := command_sat |},
      command_sat).

End PIDController.

(** The object bound to [controller] in [run.py] is of one of the two
    classes; [controller.update] dispatches on it. *)
Inductive Controller : Type :=
| STC (c : STCController.t)
| PID (c : PIDController.t).

Section Controllers.

Variable np_sqrt : Q -> Q.

Definition update (c : Controller) (t_ measurement setpoint : Q)
    : result (Controller * Q) :=
  match c with
  | STC c =>
      '(c', command) ← STCController.update np_sqrt c t_ measurement setpoint;
      Ok (STC c', command)
  | PID c =>
      '(c', command) ← PIDController.update c t_ measurement setpoint;
      Ok (PID c', command)
  end.

End Controllers.

(** Attributes the two classes share. *)
Definition T_C (c : Controller) : Q :=
  match c with STC c => STCController.T_C c | PID c => PIDController.T_C c end.
Definition max_val (c : Controller) : Q :=
  match c with STC c => STCController.max_val c | PID c => PIDController.max_val c end.
Definition min_val (c : Controller) : Q :=
  match c with STC c => STCController.min_val c | PID c => PIDController.min_val c end.
Definition max_rate (c : Controller) : Q :=
  match c with STC c => STCController.max_rate c | PID c => PIDController.max_rate c end.
Definition err_prev (c : Controller) : Q :=
  match c with STC c => STCController.err_prev c | PID c => PIDController.err_prev c end.
Definition t_prev (c : Controller) : Q :=
  match c with STC c => STCController.t_prev c | PID c => PIDController.t_prev c end.
Definition deriv_prev (c : Controller) : Q :=
  match c with STC c => STCController.deriv_prev c | PID c => PIDController.deriv_prev c end.
Definition command_sat_prev (c : Controller) : Q :=
  match c with
  | STC c => STCController.command_sat_prev c
  | PID c => PIDController.command_sat_prev c
  end.

(** ** run.py: the simulation loop of [main] *)

(** [a[i] = v] on a preallocated array. *)
Definition store {A : Type} (a : list A) (i : nat) (v : A) : result (list A) :=
  if decide (i < length a)%nat then Ok (<[i:=v]> a) else Err IndexError.

(** [a[i, :] = v]: the row must have the width of the array. *)
Definition store_row (a : list (list Q)) (width i : nat) (v : list Q)
    : result (list (list Q)) :=
  if decide (length v = width)
  then store a i v
  else Err (ValueError "could not broadcast input array").

(** [a[-1]]. *)
Definition index_last {A : Type} (a : list A) : result A :=
  index a (length a - 1).

(** [x + d * dt] on one-dimensional arrays.  Both operands have at least
    twelve entries wherever the loop evaluates it, so NumPy accepts them
    only when they have the same length. *)
Definition euler_step (x d : list Q) (dt : Q) : result (list Q) :=
  if decide (length x = length d)
  then Ok (zip_with Qplus x (map (fun v => v * dt) d))
  else Err (ValueError "operands could not be broadcast together").

(** The array [numpy.arange(0, stop, step)] returns for a step that is not
    zero: [ceil(stop/step)] entries [i*step] (none when that is not
    positive). *)
Definition np_arange0 (stop step : Q) : list Q :=
  map (fun i => inject_Z (Z.of_nat i) * step)
      (seq 0 (Z.to_nat (Qceiling (stop / step)))).

(** The call [numpy.arange(0, stop, step)]: the length is computed by
    dividing by the step, so a zero step raises [ZeroDivisionError]. *)
Definition np_arange (stop step : Q) : result (list Q) :=
  if Qeq_bool step 0 then Err ZeroDivisionError
  else Ok (np_arange0 stop step).

(** The arrays [main] fills, and the controller object it drives. *)
Record Sim : Type := mkSim {
  state_history : list (list Q);
  control_history : list Q;
  rho_history : list Q;
  controller : Controller
}.

(** [for i in is_: s = body(i, s)], stopping at the first exception. *)
Fixpoint for_each {S : Type} (body : nat -> S -> result S) (is_ : list nat)
    (s : S) : result S :=
  match is_ with
  | [] => Ok s
  | i :: rest => s' ← body i s; for_each body rest s'
  end.

Section Main.

Variable np_sqrt : Q -> Q.

(** What [main] has computed when it reaches the loop. *)
Variable reactor_sim : Reactor.t.
Variable time ref x0 : list Q.
Variable u0 dt : Q.

(** One iteration of the simulation loop. *)
Definition loop_body (i : nat) (s : Sim) : result Sim :=
  ti ← index time i;
  xi ← index (state_history s) i;
  ui ← index (control_history s) i;
  '(dx, rho_val) ← Reactor.reactor_dae reactor_sim ti xi ui;
  rho_history' ← store (rho_history s) i rho_val;
  x' ← euler_step xi dx dt;
  state_history' ← store_row (state_history s) (length x0) (i + 1) x';
  (* Update the control signal using the controller's update method *)
  xi1 ← index state_history' (i + 1);
  y ← index xi1 0;
  r ← index ref (i + 1);
  '(controller', command) ← update np_sqrt (controller s) ti y r;
  control_history' ← store (control_history s) (i + 1) command;
  Ok {| state_history := state_history';
        control_history := control_history';
        rho_history := rho_history';
        controller := controller' |}.

(** From the preallocation of the arrays to the final reactivity. *)
Definition main_loop (controller0 : Controller) : result Sim :=
  let nt := length time in
  let state_history0 := replicate nt (replicate (length x0) 0) in
  let control_history0 := replicate nt 0 in
  let rho_history0 := replicate nt 0 in
  state_history0 ← store_row state_history0 (length x0) 0 x0;
  control_history0 ← store control_history0 0 u0;
  s ← for_each loop_body (seq 0 (nt - 1))
        {| state_history := state_history0;
           control_history := control_history0;
           rho_history := rho_history0;
           controller := controller0 |};
  (* Compute final reactivity at the last time step *)
  tN ← index_last time;
  xN ← index_last (state_history s);
  uN ← index_last (control_history s);
  '(_, rho_val) ← Reactor.reactor_dae reactor_sim tN xN uN;
  rho_history' ← store (rho_history s) (length (rho_history s) - 1) rho_val;
  Ok {| state_history := state_history s;
        control_history := control_history s;
        rho_history := rho_history';
        controller := controller s |}.

End Main.

(** ** run.py: what [main] sets up before the loop *)

Module Setup.

(** [pow_arr], by drum count. *)
Definition pow_arr (num_drums : Z) : result (list Q) :=
  if (num_drums =? 8)%Z then Ok [1; 1; 0.5; 0.5; 1; 1; 0.5; 0.5; 1; 1]
  else if (num_drums =? 4)%Z then
    Ok [0.3; 0.3; 1; 1; 0.6; 0.6; 0.8; 0.8; 1; 1]
  else if (num_drums =? 2)%Z then
    Ok [0.7; 0.7; 0.4; 0.4; 0.4; 0.8; 0.8; 0.8; 1; 1]
  else if (num_drums =? 1)%Z then
    Ok [0.9; 0.9; 0.7; 0.7; 0.5; 0.5; 0.7; 0.7; 1; 1]
  else Err (ValueError "Invalid number of drums specified.").

(** Additional reactor parameters (common to both controllers). *)
Definition Sig_x : Q := 2.65e-22.
Definition yi : Q := 0.061.
Definition yx : Q := 0.002.
Definition lamda_x : Q := 2.09e-5.
Definition lamda_I : Q := 2.87e-5.
Definition Sum_f : Q := 0.3358.
Definition G : Q := 3.2e-11.
Definition V : Q := 400 * 200.
Definition P_0 : Q := 22e6.
Definition Pi : Q := P_0 / (G * Sum_f * V).
Definition Xe0 : Q := (yi + yx) * Sum_f * Pi / (lamda_x + Sig_x * Pi).
Definition I0 : Q := yi * Sum_f * Pi / lamda_I.

(** The initial state, by drum count; [pow0] is [pow_arr[0]].  [main] has
    raised on any other drum count before it reaches this chain, which has
    no [else]. *)
Definition x0 (num_drums : Z) (pow0 : Q) : list Q :=
  if (num_drums =? 8)%Z then
    replicate 7 pow0 ++ [I0; Xe0; 900; 898; 883]
  else if (num_drums =? 4)%Z then
    replicate 7 pow0 ++ [I0; Xe0; 875; 873.5; 870]
  else if (num_drums =? 2)%Z then
    replicate 7 pow0 ++ [I0; Xe0; 890; 888; 877]
  else if (num_drums =? 1)%Z then
    replicate 7 pow0 ++ [I0; Xe0; 897; 895; 881]
  else [].

(** The reactor parameters dictionary. *)
Definition reactor_params (Rho_d0 Reactivity_per_degree : Q)
    : gmap string Q :=
  <["Rho_d0" := Rho_d0]> (
  <["Reactivity_per_degree" := Reactivity_per_degree]> (
  <["Xe0" := Xe0]> (
  <["I0" := I0]> (
  <["Pi" := Pi]> (
  <["Tf0" := 1105]> (
  <["Tm0" := 1087]> ∅)))))).

(** The controller object, by controller type. *)
Definition make_controller (controller_type : string)
    (Reactivity_per_degree u0 W : Q) : result Controller :=
  if String.eqb controller_type "STC" then
    Ok (STC (STCController.__init__ 0.001 W 0.5 180 0 0.5 u0))
  else if String.eqb controller_type "PID" then
    let Kp := 2 * 26.11e-5 / Reactivity_per_degree in
    let Ki := 5 * 26.11e-5 / Reactivity_per_degree in
    let Kd := 0.001 * 26.11e-5 / Reactivity_per_degree in
    let Kaw := 0.3 * 26.11e-5 / Reactivity_per_degree in
    let max_rate := 0.5 * 26.11e-5 / Reactivity_per_degree in
    Ok (PID (PIDController.__init__ Kp Ki Kd Kaw 0.2 180 0 max_rate u0))
  else Err (ValueError "Invalid controller type.").

(** The reactor object for a drum count. *)
Definition make_reactor (num_drums : Z) : result Reactor.t :=
  pow ← pow_arr num_drums;
  pow0 ← index pow 0;
  let '(Rho_d0, Reactivity_per_degree, _, _) := get_drum_params num_drums in
  Ok (Reactor.__init__ num_drums (x0 num_drums pow0)
        (reactor_params Rho_d0 Reactivity_per_degree)).

End Setup.

(** The one-drum reactor of [main], its initial state and baseline drum
    angle, for the examples. *)
Definition reactor1 : Reactor.t :=
  Reactor.__init__ 1 (Setup.x0 1 0.9)
    (Setup.reactor_params (-0.033085599 + 0.0071 + 0.0082) 2.77e-5).

(** * Vocabulary of the specification *)

(** The components of the tuple of [get_drum_params]. *)
Definition Rho_d0_of (p : Q * Q * Q * Q) : Q := p.1.1.1.
Definition Reactivity_per_degree_of (p : Q * Q * Q * Q) : Q := p.1.1.2.
Definition u0_of (p : Q * Q * Q * Q) : Q := p.1.2.
Definition W_of (p : Q * Q * Q * Q) : Q := p.2.

(** [Tf0] and [Tm0] as [reactor_dae] reads them. *)
Definition Tf0 (self : Reactor.t) : Q :=
  dict_get_default (Reactor.params self) "Tf0" 1105.
Definition Tm0 (self : Reactor.t) : Q :=
  dict_get_default (Reactor.params self) "Tm0" 1087.

(** The dictionary has the five keys [reactor_dae] subscripts, and the
    two conduction coefficients have non-zero divisors. *)
Definition config_ok (self : Reactor.t) : Prop :=
  is_Some (Reactor.params self !! "Rho_d0") /\
  is_Some (Reactor.params self !! "Reactivity_per_degree") /\
  is_Some (Reactor.params self !! "Xe0") /\
  is_Some (Reactor.params self !! "I0") /\
  is_Some (Reactor.params self !! "Pi") /\
  ~ Tf0 self - Tm0 self == 0 /\
  ~ Tm0 self - Reactor.Tc0 == 0.

Definition valid_drums (n : Z) : Prop :=
  n = 8%Z \/ n = 4%Z \/ n = 2%Z \/ n = 1%Z.

(** The anchor temperatures [(Tf_anchor, Tm_anchor, Tc_anchor)]: fuel,
    moderator, coolant. *)
Definition anchors (self : Reactor.t) : Q * Q * Q :=
  if (Reactor.num_drums self =? 4)%Z then (900.42, 898.261, 888.261)
  else (Tf0 self, Tm0 self, Reactor.Tc0).

(** The reactivity as the specification writes it. *)
Definition reactivity_spec (self : Reactor.t) (x : list Q) (u : Q) : Q :=
  let Rho_d0 := default 0 (Reactor.params self !! "Rho_d0") in
  let ReactivityPerDegree :=
    default 0 (Reactor.params self !! "Reactivity_per_degree") in
  let Xe0 := default 0 (Reactor.params self !! "Xe0") in
  let X := default 0 (x !! 7%nat) in
  let Tf := default 0 (x !! 9%nat) in
  let Tm := default 0 (x !! 10%nat) in
  let Tc := default 0 (x !! 11%nat) in
  let '(Tf_anchor, Tm_anchor, Tc_anchor) := anchors self in
  Rho_d0 + u * ReactivityPerDegree
  + Reactor.alpha_f * (Tf - Tf_anchor) + Reactor.alpha_m * (Tm - Tm_anchor)
  + Reactor.alpha_c * (Tc - Tc_anchor) - (Reactor.Sig_x / Reactor.Sum_f) * (X - Xe0).

(** A rational stand-in for [numpy.sqrt], for the examples: the square
    root rounded down to six decimals. *)
Definition Qsqrt_approx (q : Q) : Q :=
  Z.sqrt (Qnum q * QDen q * 10 ^ 12) # (Qden q * 10 ^ 6).

(** The divisor of the filtered derivative: [T + T_C] unless that sum is
    zero, in which case [T_C]. *)
Definition denom_spec (T T_C : Q) : Q :=
  if Qeq_bool (T + T_C) 0 then T_C else T + T_C.

(** Saturation: clamp the raw command to [[min_val, max_val]]. *)
Definition saturate_spec (min_val max_val command : Q) : Q :=
  if Qgtb command max_val then max_val
  else if Qltb command min_val then min_val
  else command.

(** Rate limiting: clamp the saturated command to within [step] of the
    previous saturated command. *)
Definition rate_limit_spec (prev step command_sat : Q) : Q :=
  if Qgtb command_sat (prev + step) then prev + step
  else if Qltb command_sat (prev - step) then prev - step
  else command_sat.

(** A call of [update]: time, measurement, setpoint. *)
Definition call : Type := Q * Q * Q.

(** A sequence of [update] calls on one object: the object after the last
    call and the commands returned, in order.  The first exception ends it. *)
Fixpoint update_seq {C : Type} (upd : C -> Q -> Q -> Q -> result (C * Q))
    (c : C) (calls : list call) : result (C * list Q) :=
  match calls with
  | [] => Ok (c, [])
  | (t_, measurement, setpoint) :: rest =>
      '(c1, command) ← upd c t_ measurement setpoint;
      '(c2, commands) ← update_seq upd c1 rest;
      Ok (c2, command :: commands)
  end.

(** At every call the rate-limit step [max_rate * (t - t_prev)] is not
    negative; [t_prev] is the time of the call before. *)
Fixpoint steps_nonneg (max_rate t_prev : Q) (calls : list call) : Prop :=
  match calls with
  | [] => True
  | (t_, _, _) :: rest =>
      0 <= max_rate * (t_ - t_prev) /\ steps_nonneg max_rate t_ rest
  end.

(** No call has both a zero elapsed time and a zero filter constant. *)
Fixpoint no_zero_divisor (T_C t_prev : Q) (calls : list call) : Prop :=
  match calls with
  | [] => True
  | (t_, _, _) :: rest =>
      ~ (t_ - t_prev == 0 /\ T_C == 0) /\ no_zero_divisor T_C t_ rest
  end.

(** Every command equals the one before it; [prev] comes before the
    first. *)
Fixpoint steady (prev : Q) (commands : list Q) : Prop :=
  match commands with
  | [] => True
  | u :: rest => u == prev /\ steady u rest
  end.

(** A sequence of PID calls with [measurement == setpoint] at every call,
    every call returning, and none of the four branches of saturation and
    rate limiting taken. *)
Fixpoint quiet_calls (c : PIDController.t) (calls : list call) : Prop :=
  match calls with
  | [] => True
  | (t_, measurement, setpoint) :: rest =>
      measurement == setpoint /\
      exists c' command,
        PIDController.update c t_ measurement setpoint = Ok (c', command) /\
        let raw := PIDController.command_prev c' in
        let step :=
          PIDController.max_rate c * (t_ - PIDController.t_prev c) in
        ~ PIDController.max_val c < raw /\
        ~ raw < PIDController.min_val c /\
        ~ PIDController.command_sat_prev c + step < raw /\
        ~ raw < PIDController.command_sat_prev c - step /\
        quiet_calls c' rest
  end.

(** The controllers of [main] for one drum, for the examples. *)
Definition pid1 : PIDController.t :=
  PIDController.__init__
    (2 * 26.11e-5 / 2.77e-5) (5 * 26.11e-5 / 2.77e-5)
    (0.001 * 26.11e-5 / 2.77e-5) (0.3 * 26.11e-5 / 2.77e-5)
    0.2 180 0 (0.5 * 26.11e-5 / 2.77e-5) 170.
Definition stc1 : STCController.t :=
  STCController.__init__ 0.001 0.49 0.5 180 0 0.5 170.

(** One step of the closed loop as the specification orders it: the
    derivative and reactivity at [(ti, xi, ui)], the explicit Euler step,
    then the controller called at [ti] with the new power and the next
    reference value. *)
Definition step_spec (np_sqrt : Q -> Q) (reactor_sim : Reactor.t) (dt : Q)
    (ti : Q) (xi : list Q) (ui : Q) (ci : Controller) (r : Q)
    (rho_i : Q) (xi1 : list Q) (ui1 : Q) (ci1 : Controller) : Prop :=
  exists dState y,
    Reactor.reactor_dae reactor_sim ti xi ui = Ok (dState, rho_i) /\
    length dState = length xi /\
    xi1 = zip_with Qplus xi (map (fun v => v * dt) dState) /\
    xi1 !! 0%nat = Some y /\
    update np_sqrt ci ti y r = Ok (ci1, ui1).

(** The first [k] steps recorded in the arrays of [s]; [cs] lists the
    controller object before each step. *)
Definition loop_trace (np_sqrt : Q -> Q) (reactor_sim : Reactor.t)
    (time ref : list Q) (dt : Q) (k : nat) (s : Sim)
    (cs : list Controller) : Prop :=
  forall i : nat, (i < k)%nat ->
    exists ti xi ui ci r rho_i xi1 ui1 ci1,
      time !! i = Some ti /\
      state_history s !! i = Some xi /\
      control_history s !! i = Some ui /\
      cs !! i = Some ci /\
      ref !! (i + 1)%nat = Some r /\
      rho_history s !! i = Some rho_i /\
      state_history s !! (i + 1)%nat = Some xi1 /\
      control_history s !! (i + 1)%nat = Some ui1 /\
      cs !! (i + 1)%nat = Some ci1 /\
      step_spec np_sqrt reactor_sim dt ti xi ui ci r rho_i xi1 ui1 ci1.

(** The invariant of the simulation loop before iteration [k]. *)
Definition loop_inv (np_sqrt : Q -> Q) (reactor_sim : Reactor.t)
    (time ref x0 : list Q) (u0 dt : Q) (controller0 : Controller)
    (k : nat) (s : Sim) (cs : list Controller) : Prop :=
  length (state_history s) = length time /\
  length (control_history s) = length time /\
  length (rho_history s) = length time /\
  length cs = S k /\
  cs !! 0%nat = Some controller0 /\
  cs !! k = Some (controller s) /\
  state_history s !! 0%nat = Some x0 /\
  control_history s !! 0%nat = Some u0 /\
  loop_trace np_sqrt reactor_sim time ref dt k s cs.

(** The final reactivity: computed at the last grid point from the last
    state and command. *)
Definition final_spec (reactor_sim : Reactor.t) (time : list Q) (N : nat)
    (s : Sim) : Prop :=
  exists tN xN uN dState rho_N,
    time !! N = Some tN /\
    state_history s !! N = Some xN /\
    control_history s !! N = Some uN /\
    Reactor.reactor_dae reactor_sim tN xN uN = Ok (dState, rho_N) /\
    rho_history s !! N = Some rho_N.

(** The vector [dx] that [reactor_dae] assembles, as a function of the
    values it has read and computed. *)
Definition dx_of (Pi n_r Cr1 Cr2 Cr3 Cr4 Cr5 Cr6 X I Tf Tm Tc K_fm K_mc rho : Q)
    : list Q :=
  [ ((rho - Reactor.beta) / Reactor.l) * n_r +
      (Reactor.beta_1 / Reactor.l) * Cr1 + (Reactor.beta_2 / Reactor.l) * Cr2 +
      (Reactor.beta_3 / Reactor.l) * Cr3 + (Reactor.beta_4 / Reactor.l) * Cr4 +
      (Reactor.beta_5 / Reactor.l) * Cr5 + (Reactor.beta_6 / Reactor.l) * Cr6;
    Reactor.Lamda_1 * n_r - Reactor.Lamda_1 * Cr1;
    Reactor.Lamda_2 * n_r - Reactor.Lamda_2 * Cr2;
    Reactor.Lamda_3 * n_r - Reactor.Lamda_3 * Cr3;
    Reactor.Lamda_4 * n_r - Reactor.Lamda_4 * Cr4;
    Reactor.Lamda_5 * n_r - Reactor.Lamda_5 * Cr5;
    Reactor.Lamda_6 * n_r - Reactor.Lamda_6 * Cr6;
    0.002 * Reactor.Sum_f * Pi + Reactor.lamda_I * I -
      Reactor.Sig_x * X * Pi - Reactor.lamda_x * X;
    Reactor.yi * Reactor.Sum_f * Pi - Reactor.lamda_I * I;
    Reactor.f_f * Reactor.P_0 / Reactor.mu_f * n_r -
      K_fm / Reactor.mu_f * (Tf - Tc);
    (1 - Reactor.f_f) * Reactor.P_0 / Reactor.mu_m * n_r +
      (K_fm * (Tf - Tm) - K_mc * (Tm - Tc)) / Reactor.mu_m;
    K_mc * (Tm - Tc) / Reactor.mu_c -
      2 * Reactor.M_dot * Reactor.cp_c * (Tc - Reactor.T_in) / Reactor.mu_c ].

(** The reactor object with another parameters dictionary. *)
Definition with_params (self : Reactor.t) (parameters : gmap string Q)
    : Reactor.t :=
  {| Reactor.num_drums := Reactor.num_drums self;
     Reactor.params := parameters;
     Reactor.x := Reactor.x self |}.

(** The reactor's dictionary has the five keys [reactor_dae] subscripts. *)
Definition has_keys (self : Reactor.t) : Prop :=
  is_Some (Reactor.params self !! "Rho_d0") /\
  is_Some (Reactor.params self !! "Reactivity_per_degree") /\
  is_Some (Reactor.params self !! "Xe0") /\
  is_Some (Reactor.params self !! "I0") /\
  is_Some (Reactor.params self !! "Pi").

(** Entry [i] of an array that has one (0 otherwise). *)
Definition entry (a : list Q) (i : nat) : Q := default 0 (a !! i).

(** The two objects are of the same class and have the same gains and
    limits; for the supertwisting class also the same [command_prev], which
    its [update] never assigns. *)
Definition same_settings (c c' : Controller) : Prop :=
  match c, c' with
  | STC a, STC b =>
      STCController.lambda_ b = STCController.lambda_ a /\
      STCController.W b = STCController.W a /\
      STCController.T_C b = STCController.T_C a /\
      STCController.max_val b = STCController.max_val a /\
      STCController.min_val b = STCController.min_val a /\
      STCController.max_rate b = STCController.max_rate a /\
      STCController.command_prev b = STCController.command_prev a
  | PID a, PID b =>
      PIDController.Kp b = PIDController.Kp a /\
      PIDController.Ki b = PIDController.Ki a /\
      PIDController.Kd b = PIDController.Kd a /\
      PIDController.Kaw b = PIDController.Kaw a /\
      PIDController.T_C b = PIDController.T_C a /\
      PIDController.max_val b = PIDController.max_val a /\
      PIDController.min_val b = PIDController.min_val a /\
      PIDController.max_rate b = PIDController.max_rate a
  | _, _ => False
  end.

(** The call times never go back; [t_prev] is the time of the call
    before. *)
Fixpoint times_nondecreasing (t_prev : Q) (calls : list call) : Prop :=
  match calls with
  | [] => True
  | (t_, _, _) :: rest => t_prev <= t_ /\ times_nondecreasing t_ rest
  end.

(** The time of the last call, [t_prev] when there is none. *)
Fixpoint last_time (t_prev : Q) (calls : list call) : Q :=
  match calls with
  | [] => t_prev
  | (t_, _, _) :: rest => last_time t_ rest
  end.

(** The grid never goes back. *)
Definition grid_nondecreasing (time : list Q) : Prop :=
  forall (i j : nat) (ti tj : Q),
    (i <= j)%nat -> time !! i = Some ti -> time !! j = Some tj -> ti <= tj.

(** ** run.py: [generate_reference] and [main] up to the loop *)

(** [generate_reference(time, time_points, pow_arr)]: the call of
    [numpy.interp], which is a parameter here. *)
Definition generate_reference
    (np_interp : list Q -> list Q -> list Q -> list Q)
    (time time_points pow_arr : list Q) : list Q :=
  np_interp time time_points pow_arr.

(** [time_points]. *)
Definition time_points : list Q :=
  map (fun v => v * 30) [0; 20; 30; 50; 60; 80; 90; 110; 130; 200].

(** [main], from its first statement to the final reactivity, with the four
    values it hard-codes ([controller_type], [num_drums], [dt], [T_sim]) as
    arguments. *)
Definition main_simulation (np_sqrt : Q -> Q)
    (np_interp : list Q -> list Q -> list Q -> list Q)
    (controller_type : string) (num_drums : Z) (dt T_sim : Q) : result Sim :=
  time ← np_arange (T_sim + dt) dt;
  pow_arr ← Setup.pow_arr num_drums;
  let ref := generate_reference np_interp time time_points pow_arr in
  let '(_, Reactivity_per_degree, u0, W) := get_drum_params num_drums in
  reactor_sim ← Setup.make_reactor num_drums;
  controller ← Setup.make_controller controller_type Reactivity_per_degree u0 W;
  main_loop np_sqrt reactor_sim time ref (Reactor.x reactor_sim) u0 dt
    controller.

(** A stand-in for [numpy.interp], for the examples: the first ordinate at
    every point. *)
Definition interp_first (time time_points pow_arr : list Q) : list Q :=
  map (fun _ => default 0 (pow_arr !! 0%nat)) time.

(** ** The drum speed of run.py and plot.py *)

(** [numpy.diff]: [a[i+1] - a[i]]. *)
Definition np_diff (a : list Q) : list Q :=
  zip_with (fun lo hi => hi - lo) a (tail a).

(** [f] over an array, stopping at the first exception. *)
Fixpoint map_result {A B : Type} (f : A -> result B) (l : list A)
    : result (list B) :=
  match l with
  | [] => Ok []
  | a :: rest => b ← f a; bs ← map_result f rest; Ok (b :: bs)
  end.

(** [du = np.zeros_like(u); du[1:] = np.diff(u) / dt].  With [dt = 0] numpy
    fills the array with infinities and NaN, which the rationals do not
    have: that case is an error here, and the properties below take
    [dt > 0]. *)
Definition drum_speed (u : list Q) (dt : Q) : result (list Q) :=
  quotients ← map_result (fun d => py_div d dt) (np_diff u);
  Ok (match u with [] => [] | _ :: _ => 0 :: quotients end).

(** [numpy.sum] and [numpy.mean].  The mean of an empty array is NaN in
    numpy; it is an error here, and [moving_average] never takes it. *)
Definition np_sum (a : list Q) : Q := foldr Qplus 0 a.
Definition np_mean (a : list Q) : result Q :=
  py_div (np_sum a) (inject_Z (Z.of_nat (length a))).

(** [a[i:j]] for indices that are not negative. *)
Definition py_slice {A : Type} (a : list A) (i j : nat) : list A :=
  take (j - i) (drop i a).

(** The moving average of [plot_results]: entry [i] of the copy becomes the
    mean of [du[i - window_size : i + window_size + 1]], for [i] in
    [range(window_size, len(du) - window_size)]. *)
Definition moving_average (window_size : nat) (du : list Q)
    : result (list Q) :=
  for_each
    (fun i du_filtered =>
       m ← np_mean (py_slice du (i - window_size) (i + window_size + 1));
       store du_filtered i m)
    (seq window_size (length du - window_size - window_size))
    du.

(** [a[100:-100]]. *)
Definition slice_100 {A : Type} (a : list A) : list A :=
  py_slice a 100 (length a - 100).

(** The abscissae and ordinates of the drum speed plot of [plot_results]. *)
Definition plot_drum_speed (controller_type : string) (time u : list Q)
    : result (list Q * list Q) :=
  let t_min := map (fun t => t / 60.0) time in
  dt ← (if decide (1 < length time)%nat
        then t1 ← index time 1; t0 ← index time 0; Ok (t1 - t0)
        else Ok 1);
  du ← drum_speed u dt;
  if String.eqb controller_type "STC" then
    du_filtered ← moving_average 30 du;
    Ok (slice_100 t_min, slice_100 du_filtered)
  else Ok (t_min, du).

(** * Properties *)

(** ** The error monad and the primitives *)

Lemma bind_Ok_inv {A B : Type} (m : result A) (k : A -> result B) (b : B) :
  m ≫= k = Ok b -> exists a, m = Ok a /\ k a = Ok b.
Proof.
  destruct m as [a|e]; simpl; intros H; [eauto | discriminate].
Qed.

Ltac inv_bind H :=
  let a := fresh "v" in
  let Ha := fresh "E" in
  apply bind_Ok_inv in H; destruct H as (a & Ha & H).

Lemma Qltb_true (x y : Q) : Qltb x y = true <-> x < y.
Proof.
  unfold Qltb. rewrite negb_true_iff.
  split; intros H.
  - apply Qnot_le_lt. intros Hle. apply Qle_bool_iff in Hle. congruence.
  - destruct (Qle_bool y x) eqn:E; [|reflexivity].
    apply Qle_bool_iff in E. lra.
Qed.

Lemma Qltb_false (x y : Q) : Qltb x y = false <-> y <= x.
Proof.
  unfold Qltb. rewrite negb_false_iff. apply Qle_bool_iff.
Qed.

Lemma Qgtb_true (x y : Q) : Qgtb x y = true <-> y < x.
Proof. apply Qltb_true. Qed.

Lemma Qgtb_false (x y : Q) : Qgtb x y = false <-> x <= y.
Proof. apply Qltb_false. Qed.

Lemma Qeq_bool_false (x y : Q) : Qeq_bool x y = false <-> ~ x == y.
Proof.
  split.
  - intros H Heq. apply Qeq_bool_iff in Heq. congruence.
  - intros H. destruct (Qeq_bool x y) eqn:E; [|reflexivity].
    apply Qeq_bool_iff in E. contradiction.
Qed.

(** Case analysis on the comparisons of a goal or of the hypotheses. *)
Ltac qcases :=
  repeat match goal with
  | |- context [Qgtb ?a ?b] =>
      let E := fresh "E" in
      destruct (Qgtb a b) eqn:E;
      [apply Qgtb_true in E | apply Qgtb_false in E]
  | |- context [Qltb ?a ?b] =>
      let E := fresh "E" in
      destruct (Qltb a b) eqn:E;
      [apply Qltb_true in E | apply Qltb_false in E]
  | |- context [Qeq_bool ?a ?b] =>
      let E := fresh "E" in
      destruct (Qeq_bool a b) eqn:E;
      [apply Qeq_bool_iff in E | apply Qeq_bool_false in E]
  end.

Lemma py_div_Ok (x y : Q) : ~ y == 0 -> py_div x y = Ok (x / y).
Proof.
  intros H. unfold py_div. apply Qeq_bool_false in H. rewrite H. reflexivity.
Qed.

Lemma py_div_Ok_inv (x y q : Q) : py_div x y = Ok q -> ~ y == 0 /\ q = x / y.
Proof.
  unfold py_div. destruct (Qeq_bool y 0) eqn:E; [discriminate|].
  intros [= <-]. split; [by apply Qeq_bool_false | reflexivity].
Qed.

Lemma py_div_Err (x y : Q) : y == 0 -> py_div x y = Err ZeroDivisionError.
Proof.
  intros H. unfold py_div. apply Qeq_bool_iff in H. rewrite H. reflexivity.
Qed.

Lemma index_Ok_inv {A : Type} (a : list A) (i : nat) (v : A) :
  index a i = Ok v -> a !! i = Some v.
Proof. unfold index. destruct (a !! i); congruence. Qed.

Lemma index_Ok {A : Type} (a : list A) (i : nat) (v : A) :
  a !! i = Some v -> index a i = Ok v.
Proof. unfold index. intros ->. reflexivity. Qed.

Lemma index_lt {A : Type} (a : list A) (i : nat) :
  (i < length a)%nat -> exists v, index a i = Ok v /\ a !! i = Some v.
Proof.
  intros H. destruct (lookup_lt_is_Some_2 a i H) as [v Hv].
  exists v. split; [by apply index_Ok | done].
Qed.

Lemma dict_get_Ok_inv (d : gmap string Q) (k : string) (v : Q) :
  dict_get d k = Ok v -> d !! k = Some v.
Proof. unfold dict_get. destruct (d !! k); congruence. Qed.

Lemma dict_get_Ok (d : gmap string Q) (k : string) (v : Q) :
  d !! k = Some v -> dict_get d k = Ok v.
Proof. unfold dict_get. intros ->. reflexivity. Qed.

(** ** C1: the drum table *)

(** C1.  For 8, 4, 2 and 1 drums [get_drum_params] returns the tabulated
    literals; down that list [u0] and [W] strictly increase and
    [Reactivity_per_degree] strictly decreases; every other drum count gets
    the 8-drum [Rho_d0], [Reactivity_per_degree] and [u0] with [W = 0.04],
    which is not the 8-drum gain [0.06]. *)
Theorem get_drum_params_table :
  get_drum_params 8 = (-0.033085599, 26.11e-5, 77.56, 0.06) /\
  get_drum_params 4 = (-0.033085599 + 0.013980296, 16.11e-5, 108.5, 0.1) /\
  get_drum_params 2 = (-0.033085599 + 0.0074, 7.33e-5, 165.5, 0.2) /\
  get_drum_params 1 = (-0.033085599 + 0.0071 + 0.0082, 2.77e-5, 170, 0.49) /\
  (u0_of (get_drum_params 8) < u0_of (get_drum_params 4) /\
   u0_of (get_drum_params 4) < u0_of (get_drum_params 2) /\
   u0_of (get_drum_params 2) < u0_of (get_drum_params 1)) /\
  (W_of (get_drum_params 8) < W_of (get_drum_params 4) /\
   W_of (get_drum_params 4) < W_of (get_drum_params 2) /\
   W_of (get_drum_params 2) < W_of (get_drum_params 1)) /\
  (Reactivity_per_degree_of (get_drum_params 8) >
     Reactivity_per_degree_of (get_drum_params 4) /\
   Reactivity_per_degree_of (get_drum_params 4) >
     Reactivity_per_degree_of (get_drum_params 2) /\
   Reactivity_per_degree_of (get_drum_params 2) >
     Reactivity_per_degree_of (get_drum_params 1)) /\
  (forall n : Z, n <> 8%Z -> n <> 4%Z -> n <> 2%Z -> n <> 1%Z ->
     get_drum_params n =
       (Rho_d0_of (get_drum_params 8),
        Reactivity_per_degree_of (get_drum_params 8),
        u0_of (get_drum_params 8), 0.04)) /\
  W_of (get_drum_params 8) == 0.06 /\ ~ W_of (get_drum_params 8) == 0.04.
Proof.
  repeat match goal with |- _ /\ _ => split end;
    try reflexivity; try (intros H; discriminate H).
  intros n H8 H4 H2 H1. unfold get_drum_params.
  apply Z.eqb_neq in H8, H4, H2, H1. rewrite H8, H4, H2, H1. reflexivity.
Qed.

Lemma get_drum_params_table_witness :
  get_drum_params 3 = (-0.033085599, 26.11e-5, 77.56, 0.04).
Proof.
  apply (proj1 (proj2 (proj2 (proj2 (proj2 (proj2 (proj2 (proj2
    get_drum_params_table)))))))); lia.
Defined.

(** ** C2, C3: the reactivity of [reactor_dae] *)

Section Reactivity.

Import Reactor.

Lemma in_8_2_1_true (n : Z) :
  in_8_2_1 n = true -> n = 8%Z \/ n = 2%Z \/ n = 1%Z.
Proof. unfold in_8_2_1. lia. Qed.

(** Whenever the call returns, the reactivity is the specified one. *)
Lemma reactor_dae_rho (self : Reactor.t) (t_ : Q) (x : list Q) (u : Q)
    (dx : list Q) (rho : Q) :
  reactor_dae self t_ x u = Ok (dx, rho) ->
  valid_drums (num_drums self) /\ length dx = 12%nat /\
  rho == reactivity_spec self x u.
Proof.
  unfold reactor_dae. intros H.
  repeat inv_bind H.
  repeat match goal with
  | E : dict_get _ _ = Ok _ |- _ => apply dict_get_Ok_inv in E
  | E : index _ _ = Ok _ |- _ => apply index_Ok_inv in E
  end.
  injection H as <- <-.
  unfold reactivity_spec, anchors.
  repeat match goal with E : _ !! _ = Some _ |- _ => rewrite E; clear E end.
  simpl default.
  destruct (in_8_2_1 (num_drums self)) eqn:E821.
  - apply in_8_2_1_true in E821.
    assert ((num_drums self =? 4)%Z = false) as -> by lia.
    match goal with E : Ok _ = Ok _ |- _ => injection E as <- end.
    split; [unfold valid_drums; tauto|]. split; [reflexivity|].
    fold (Tf0 self) (Tm0 self).
    unfold alpha_f, alpha_m, alpha_c, Sig_x, Sum_f.
    field; repeat split; intros Hc; vm_compute in Hc; discriminate Hc.
  - destruct (num_drums self =? 4)%Z eqn:Enum4; [|discriminate].
    match goal with E : Ok _ = Ok _ |- _ => injection E as <- end.
    split; [unfold valid_drums; lia|]. split; [reflexivity|].
    unfold alpha_f, alpha_m, alpha_c, Sig_x, Sum_f.
    field; repeat split; intros Hc; vm_compute in Hc; discriminate Hc.
Qed.

(** On a well-formed configuration and a state of twelve entries the call
    returns. *)
Lemma reactor_dae_returns (self : Reactor.t) (t_ : Q) (x : list Q) (u : Q) :
  config_ok self -> (12 <= length x)%nat -> valid_drums (num_drums self) ->
  exists dx rho, reactor_dae self t_ x u = Ok (dx, rho).
Proof.
  intros (H1 & H2 & H3 & H4 & H5 & Hfm & Hmc) Hlen Hnd.
  destruct H1 as [v1 H1], H2 as [v2 H2], H3 as [v3 H3], H4 as [v4 H4],
    H5 as [v5 H5].
  unfold reactor_dae.
  rewrite (dict_get_Ok _ _ _ H1), (dict_get_Ok _ _ _ H2),
    (dict_get_Ok _ _ _ H3), (dict_get_Ok _ _ _ H4), (dict_get_Ok _ _ _ H5).
  simpl. fold (Tf0 self) (Tm0 self).
  rewrite (py_div_Ok _ _ Hfm), (py_div_Ok _ _ Hmc). simpl.
  do 12 (destruct x as [|? x]; [simpl in Hlen; lia|]).
  simpl.
  destruct Hnd as [-> | [-> | [-> | ->]]]; simpl; eauto.
Qed.

(** With an unsupported drum count the call never returns. *)
Lemma reactor_dae_invalid (self : Reactor.t) (t_ : Q) (x : list Q) (u : Q) :
  ~ valid_drums (num_drums self) ->
  exists e, reactor_dae self t_ x u = Err e.
Proof.
  intros Hnd. destruct (reactor_dae self t_ x u) as [[dx rho]|e] eqn:E.
  - apply reactor_dae_rho in E. tauto.
  - eauto.
Qed.

End Reactivity.

Lemma make_reactor_1 : Setup.make_reactor 1 = Ok reactor1.
Proof. reflexivity. Qed.

(** In the four-drum branch the temperature feedback vanishes at fuel
    900.42 and moderator 898.261, whatever the coolant temperature: the
    coolant coefficient [alpha_c] is zero. *)
Lemma reactivity_spec_drum4_anchor (self : Reactor.t) (x : list Q) (u X Tc : Q) :
  Reactor.num_drums self = 4%Z ->
  x !! 7%nat = Some X -> Reactor.params self !! "Xe0" = Some X ->
  x !! 9%nat = Some 900.42 -> x !! 10%nat = Some 898.261 ->
  x !! 11%nat = Some Tc ->
  reactivity_spec self x u ==
    default 0 (Reactor.params self !! "Rho_d0") +
    u * default 0 (Reactor.params self !! "Reactivity_per_degree").
Proof.
  intros Hn H7 HX H9 H10 H11. unfold reactivity_spec, anchors.
  rewrite Hn, H7, HX, H9, H10, H11. simpl.
  unfold Reactor.alpha_c. lra.
Qed.

(** C2.  Whenever [reactor_dae] returns, the reactivity it returns is
    [Rho_d0 + u*ReactivityPerDegree + alpha_f*(Tf - Tf_anchor)
     + alpha_m*(Tm - Tm_anchor) + alpha_c*(Tc - Tc_anchor)
     - (Sig_x/Sum_f)*(X - Xe0)]; for 8, 2 and 1 drums the anchors are the
    configured [Tf0], [Tm0] and [Tc0 = (T_in + T_out)/2], for 4 drums they
    are the literals 900.42 (fuel), 898.261 (moderator) and 888.261
    (coolant).  It does return for a state of twelve entries, a supported
    drum count and a configuration that has the five keys and non-zero
    conduction divisors. *)
Theorem reactor_dae_reactivity (self : Reactor.t) (t_ : Q) (x : list Q) (u : Q) :
  (forall dx rho, Reactor.reactor_dae self t_ x u = Ok (dx, rho) ->
     rho == reactivity_spec self x u) /\
  (Reactor.num_drums self = 4%Z ->
     anchors self = (900.42, 898.261, 888.261)) /\
  (Reactor.num_drums self = 8%Z \/ Reactor.num_drums self = 2%Z \/
   Reactor.num_drums self = 1%Z ->
     anchors self =
       (dict_get_default (Reactor.params self) "Tf0" 1105,
        dict_get_default (Reactor.params self) "Tm0" 1087,
        (Reactor.T_in + Reactor.T_out) / 2)) /\
  (config_ok self -> length x = 12%nat ->
   valid_drums (Reactor.num_drums self) ->
     exists dx rho, Reactor.reactor_dae self t_ x u = Ok (dx, rho) /\
       rho == reactivity_spec self x u).
Proof.
  split; [|split; [|split]].
  - intros dx rho H. by apply reactor_dae_rho in H as (_ & _ & H).
  - intros H. unfold anchors. rewrite H. reflexivity.
  - intros H. unfold anchors.
    assert ((Reactor.num_drums self =? 4)%Z = false) as -> by lia.
    reflexivity.
  - intros Hc Hlen Hnd.
    destruct (reactor_dae_returns self t_ x u Hc) as (dx & rho & H);
      [lia | done |].
    exists dx, rho. split; [done|].
    by apply reactor_dae_rho in H as (_ & _ & H).
Qed.

Lemma reactor1_config_ok : config_ok reactor1.
Proof.
  unfold config_ok.
  repeat match goal with
  | |- _ /\ _ => split
  | |- is_Some _ => eexists; vm_compute; reflexivity
  | |- ~ _ => intros Hc; vm_compute in Hc; discriminate Hc
  end.
Defined.

Lemma reactor_dae_reactivity_witness :
  exists dx rho,
    Reactor.reactor_dae reactor1 0 (Reactor.x reactor1) 170 = Ok (dx, rho) /\
    rho == reactivity_spec reactor1 (Reactor.x reactor1) 170.
Proof.
  apply (proj2 (proj2 (proj2
    (reactor_dae_reactivity reactor1 0 (Reactor.x reactor1) 170)))).
  - exact reactor1_config_ok.
  - reflexivity.
  - unfold valid_drums. simpl. tauto.
Defined.

(** C3.  With a drum count other than 8, 4, 2 and 1, [reactor_dae] never
    returns a derivative vector or a reactivity: every call raises.  On a
    configuration with the five keys and non-zero conduction divisors, and a
    state of at least twelve entries, the exception is the [ValueError] of
    the drum-count test. *)
Theorem reactor_dae_invalid_drums (self : Reactor.t) (t_ : Q) (x : list Q)
    (u : Q) :
  ~ valid_drums (Reactor.num_drums self) ->
  (forall dx rho, Reactor.reactor_dae self t_ x u <> Ok (dx, rho)) /\
  (exists e, Reactor.reactor_dae self t_ x u = Err e) /\
  (config_ok self -> (12 <= length x)%nat ->
     Reactor.reactor_dae self t_ x u =
       Err (ValueError "Invalid number of drums specified.")).
Proof.
  intros Hnd. split; [|split].
  - intros dx rho H. apply reactor_dae_rho in H. tauto.
  - by apply reactor_dae_invalid.
  - intros (H1 & H2 & H3 & H4 & H5 & Hfm & Hmc) Hlen.
    destruct H1 as [v1 H1], H2 as [v2 H2], H3 as [v3 H3], H4 as [v4 H4],
      H5 as [v5 H5].
    unfold Reactor.reactor_dae.
    rewrite (dict_get_Ok _ _ _ H1), (dict_get_Ok _ _ _ H2),
      (dict_get_Ok _ _ _ H3), (dict_get_Ok _ _ _ H4), (dict_get_Ok _ _ _ H5).
    simpl. fold (Tf0 self) (Tm0 self).
    rewrite (py_div_Ok _ _ Hfm), (py_div_Ok _ _ Hmc). simpl.
    do 12 (destruct x as [|? x]; [simpl in Hlen; lia|]).
    simpl.
    assert (Reactor.in_8_2_1 (Reactor.num_drums self) = false) as ->.
    { unfold Reactor.in_8_2_1, valid_drums in *. lia. }
    assert ((Reactor.num_drums self =? 4)%Z = false) as ->.
    { unfold valid_drums in *. lia. }
    reflexivity.
Qed.

(** The one-drum reactor of [main] with three drums instead. *)
Lemma reactor_dae_invalid_drums_witness :
  Reactor.reactor_dae
    (Reactor.__init__ 3 (Reactor.x reactor1) (Reactor.params reactor1))
    0 (Reactor.x reactor1) 170 =
  Err (ValueError "Invalid number of drums specified.").
Proof.
  apply (reactor_dae_invalid_drums
    (Reactor.__init__ 3 (Reactor.x reactor1) (Reactor.params reactor1))).
  - unfold valid_drums. simpl. lia.
  - exact reactor1_config_ok.
  - simpl. lia.
Defined.

(** ** Saturation and rate limiting *)

Lemma saturate_spec_range (min_val max_val command : Q) :
  min_val <= max_val ->
  min_val <= saturate_spec min_val max_val command <= max_val.
Proof. intros H. unfold saturate_spec. qcases; lra. Qed.

Lemma saturate_spec_id (min_val max_val command : Q) :
  min_val <= command <= max_val ->
  saturate_spec min_val max_val command = command.
Proof. intros H. unfold saturate_spec. qcases; try lra. reflexivity. Qed.

Lemma rate_limit_spec_range (lo hi prev step command_sat : Q) :
  0 <= step -> lo <= prev <= hi -> lo <= command_sat <= hi ->
  lo <= rate_limit_spec prev step command_sat <= hi.
Proof. intros Hs Hp Hc. unfold rate_limit_spec. qcases; lra. Qed.

Lemma rate_limit_spec_abs_gen (prev step command_sat : Q) :
  Qabs (rate_limit_spec prev step command_sat - prev) <= Qabs step.
Proof.
  unfold rate_limit_spec. qcases.
  - assert (prev + step - prev == step) as -> by ring. lra.
  - assert (prev - step - prev == - step) as -> by ring.
    rewrite Qabs_opp. lra.
  - apply Qabs_case; intros; apply Qabs_case; intros; lra.
Qed.

Lemma rate_limit_spec_abs (prev step command_sat : Q) :
  0 <= step ->
  Qabs (rate_limit_spec prev step command_sat - prev) <= step.
Proof.
  intros Hs. eapply Qle_trans; [apply rate_limit_spec_abs_gen|].
  rewrite Qabs_pos; lra.
Qed.

Lemma rate_limit_spec_zero (prev step command_sat : Q) :
  step == 0 -> rate_limit_spec prev step command_sat == prev.
Proof. intros Hs. unfold rate_limit_spec. qcases; lra. Qed.

Lemma rate_limit_spec_id (prev step command_sat : Q) :
  prev - step <= command_sat <= prev + step ->
  rate_limit_spec prev step command_sat = command_sat.
Proof. intros H. unfold rate_limit_spec. qcases; try lra. reflexivity. Qed.

(** ** One call of [update] *)

Lemma denom_spec_eq (T T_C : Q) :
  (if negb (Qeq_bool (T + T_C) 0) then T + T_C else T_C) = denom_spec T T_C.
Proof. unfold denom_spec. by destruct (Qeq_bool (T + T_C) 0). Qed.

Lemma denom_spec_nonzero (T T_C : Q) :
  ~ (T == 0 /\ T_C == 0) -> ~ denom_spec T T_C == 0.
Proof.
  intros H. unfold denom_spec. qcases; [|done].
  intros Hc. apply H. split; lra.
Qed.

Lemma denom_spec_zero (T T_C : Q) :
  T == 0 /\ T_C == 0 -> denom_spec T T_C == 0.
Proof. intros [HT HC]. unfold denom_spec. qcases; lra. Qed.

Section OneCall.

Variable np_sqrt : Q -> Q.

(** What a call that returns has computed. *)
Lemma update_Ok_inv (c : Controller) (t_ measurement setpoint : Q)
    (c' : Controller) (command : Q) :
  update np_sqrt c t_ measurement setpoint = Ok (c', command) ->
  let T := t_ - t_prev c in
  ~ denom_spec T (T_C c) == 0 /\
  deriv_prev c' =
    (setpoint - measurement - err_prev c + T_C c * deriv_prev c) /
    denom_spec T (T_C c) /\
  (exists raw,
     command =
       rate_limit_spec (command_sat_prev c) (max_rate c * T)
         (saturate_spec (min_val c) (max_val c) raw)) /\
  command_sat_prev c' = command /\ t_prev c' = t_ /\
  err_prev c' = setpoint - measurement /\
  T_C c' = T_C c /\ max_val c' = max_val c /\ min_val c' = min_val c /\
  max_rate c' = max_rate c.
Proof.
  destruct c as [c|c]; simpl; intros H;
    apply bind_Ok_inv in H as ([c1 u1] & Hupd & H);
    injection H as <- <-;
    [unfold STCController.update in Hupd
    |unfold PIDController.update in Hupd];
    rewrite denom_spec_eq in Hupd;
    apply bind_Ok_inv in Hupd as (deriv_filt & Hdiv & Hupd);
    apply py_div_Ok_inv in Hdiv as [Hd ->];
    injection Hupd as <- <-; simpl;
    (split; [exact Hd|]); (split; [reflexivity|]);
    (split; [eexists; reflexivity|]); repeat split.
Qed.

(** A call returns unless the elapsed time and the filter constant are
    both zero. *)
Lemma update_returns (c : Controller) (t_ measurement setpoint : Q) :
  ~ (t_ - t_prev c == 0 /\ T_C c == 0) ->
  exists c' command,
    update np_sqrt c t_ measurement setpoint = Ok (c', command).
Proof.
  intros H. apply denom_spec_nonzero in H.
  destruct c as [c|c]; simpl in *;
    [unfold STCController.update | unfold PIDController.update];
    rewrite denom_spec_eq, (py_div_Ok _ _ H); simpl; eauto.
Qed.

(** With both zero, the call divides by zero. *)
Lemma update_zero_divisor (c : Controller) (t_ measurement setpoint : Q) :
  t_ - t_prev c == 0 /\ T_C c == 0 ->
  update np_sqrt c t_ measurement setpoint = Err ZeroDivisionError.
Proof.
  intros H. apply denom_spec_zero in H.
  destruct c as [c|c]; simpl in *;
    [unfold STCController.update | unfold PIDController.update];
    rewrite denom_spec_eq, (py_div_Err _ _ H); reflexivity.
Qed.

End OneCall.

Lemma make_controller_1 :
  Setup.make_controller "PID" 2.77e-5 170 0.49 = Ok (PID pid1) /\
  Setup.make_controller "STC" 2.77e-5 170 0.49 = Ok (STC stc1).
Proof. split; reflexivity. Qed.

(** ** C4: the filtered derivative *)

(** C4, as the code has it.  For either controller and every call, with
    [T] the elapsed time: unless [T] and [T_C] are both zero the call
    returns, its divisor [denom] ([T + T_C], or [T_C] when that sum is zero)
    is not zero, and the filtered derivative it stores is
    [(err - err_prev + T_C*deriv_prev)/denom]; when [T] and [T_C] are both
    zero the call divides by zero. *)
Theorem filtered_derivative_guard (np_sqrt : Q -> Q) (c : Controller)
    (t_ measurement setpoint : Q) :
  let T := t_ - t_prev c in
  let err := setpoint - measurement in
  let denom := if Qeq_bool (T + T_C c) 0 then T_C c else T + T_C c in
  (~ (T == 0 /\ T_C c == 0) ->
     exists c' command,
       update np_sqrt c t_ measurement setpoint = Ok (c', command) /\
       ~ denom == 0 /\
       deriv_prev c' = (err - err_prev c + T_C c * deriv_prev c) / denom) /\
  (T == 0 /\ T_C c == 0 ->
     update np_sqrt c t_ measurement setpoint = Err ZeroDivisionError).
Proof.
  intros T err denom. split.
  - intros H.
    destruct (update_returns np_sqrt c t_ measurement setpoint H)
      as (c' & command & Hupd).
    exists c', command. split; [exact Hupd|].
    apply update_Ok_inv in Hupd as (Hd & Hderiv & _).
    split; [exact Hd | exact Hderiv].
  - apply update_zero_divisor.
Qed.

Lemma filtered_derivative_guard_witness :
  exists c' command,
    update Qsqrt_approx (PID pid1) (1 # 10) 0.9 0.9 = Ok (c', command) /\
    ~ 0.1 - 0 + 0.2 == 0 /\
    deriv_prev c' = (0.9 - 0.9 - 0 + 0.2 * 0) / (0.1 - 0 + 0.2).
Proof.
  apply (proj1 (filtered_derivative_guard Qsqrt_approx (PID pid1)
                  (1 # 10) 0.9 0.9)).
  intros [H _]. vm_compute in H. discriminate H.
Defined.

(** The guard falls back to [T_C]; with [T_C = 0] a call at the previous
    time divides by zero, in both classes. *)
Lemma filtered_derivative_divides_by_zero :
  update Qsqrt_approx
    (PID (PIDController.__init__ 1 1 1 1 0 180 0 1 100)) 0 1 1
    = Err ZeroDivisionError /\
  update Qsqrt_approx
    (STC (STCController.__init__ 0.001 0.06 0 180 0 0.5 100)) 0 1 1
    = Err ZeroDivisionError.
Proof. split; reflexivity. Qed.

(** ** C6: the rate limit *)

(** C6.  For either controller with [max_rate >= 0].  A call at elapsed
    time [T > 0] returns, and its command differs from the previous
    saturated command by at most [max_rate*T].  For a call that returns,
    whatever its own elapsed time: the command is the raw command saturated
    and then rate limited, it is stored as the new previous saturated
    command, and the next call, made at elapsed time [T > 0] after it,
    returns a command that differs from it by at most [max_rate*T], hence by
    at most [max_rate*T + eps] for every tolerance [eps >= 0]. *)
Theorem rate_limit_bound (np_sqrt : Q -> Q) (c : Controller)
    (t_ measurement setpoint : Q) :
  0 <= max_rate c ->
  (0 < t_ - t_prev c ->
   exists c' command,
     update np_sqrt c t_ measurement setpoint = Ok (c', command) /\
     Qabs (command - command_sat_prev c) <= max_rate c * (t_ - t_prev c)) /\
  (forall c' command,
     update np_sqrt c t_ measurement setpoint = Ok (c', command) ->
     (exists raw,
        command =
          rate_limit_spec (command_sat_prev c) (max_rate c * (t_ - t_prev c))
            (saturate_spec (min_val c) (max_val c) raw)) /\
     command_sat_prev c' = command /\
     forall t2 measurement2 setpoint2,
       0 < t2 - t_ ->
       exists c2 command2,
         update np_sqrt c' t2 measurement2 setpoint2 = Ok (c2, command2) /\
         Qabs (command2 - command) <= max_rate c * (t2 - t_) /\
         (forall eps, 0 <= eps ->
            Qabs (command2 - command) <= max_rate c * (t2 - t_) + eps)).
Proof.
  intros Hr.
  assert (Hstep : forall T, 0 < T -> 0 <= max_rate c * T).
  { intros T H. apply Qmult_le_0_compat; lra. }
  split.
  - intros HT.
    destruct (update_returns np_sqrt c t_ measurement setpoint)
      as (c' & command & Hupd); [intros [H _]; lra|].
    exists c', command. split; [exact Hupd|].
    apply update_Ok_inv in Hupd as (_ & _ & [raw ->] & _).
    apply rate_limit_spec_abs. by apply Hstep.
  - intros c' command Hupd.
    apply update_Ok_inv in Hupd
      as (_ & _ & [raw Hraw] & Hsat & Htp & _ & _ & _ & _ & Hrate).
    split; [by exists raw|]. split; [exact Hsat|].
    intros t2 m2 s2 HT2.
    destruct (update_returns np_sqrt c' t2 m2 s2)
      as (c2 & u2 & Hupd2); [rewrite Htp; intros [H _]; lra|].
    exists c2, u2. split; [exact Hupd2|].
    apply update_Ok_inv in Hupd2 as (_ & _ & [raw2 Hraw2] & _).
    rewrite Hsat, Htp, Hrate in Hraw2.
    assert (Hb : Qabs (u2 - command) <= max_rate c * (t2 - t_)).
    { rewrite Hraw2. apply rate_limit_spec_abs. by apply Hstep. }
    split; [exact Hb|]. intros eps Heps. lra.
Qed.

(** The first two calls of the loop of [main]: the first at the initial
    previous time, the second one step later. *)
Lemma rate_limit_bound_witness :
  exists c1 u1 c2 u2,
    update Qsqrt_approx (STC stc1) 0 0.8 0.9 = Ok (c1, u1) /\
    update Qsqrt_approx c1 0.1 0.7 0.9 = Ok (c2, u2) /\
    Qabs (u2 - u1) <= 0.5 * (0.1 - 0).
Proof.
  eexists _, _.
  assert (H1 : update Qsqrt_approx (STC stc1) 0 0.8 0.9 = Ok _)
    by (vm_compute; reflexivity).
  destruct (proj2 (rate_limit_bound Qsqrt_approx (STC stc1) 0 0.8 0.9
                     ltac:(vm_compute; discriminate)) _ _ H1)
    as (_ & _ & Hnext).
  destruct (Hnext 0.1 0.7 0.9 ltac:(reflexivity)) as (c2 & u2 & H2 & Hb & _).
  exists c2, u2. split; [exact H1|]. split; [exact H2 | exact Hb].
Defined.

(** ** C10: a call at the previous time *)

(** C10, as the code has it.  For either controller with [T_C] not zero,
    a call whose time equals the stored previous time returns, and returns
    the previous saturated command, whatever the measurement and the
    setpoint; on a fresh object that is a call at time 0 and the command is
    [u0]. *)
Theorem zero_elapsed_returns_previous (np_sqrt : Q -> Q) (c : Controller)
    (t_ measurement setpoint : Q) :
  t_ == t_prev c ->
  ~ T_C c == 0 ->
  (exists c' command,
     update np_sqrt c t_ measurement setpoint = Ok (c', command) /\
     command == command_sat_prev c) /\
  (forall lambda_ W T_C max_val min_val max_rate u0,
     c = STC (STCController.__init__ lambda_ W T_C max_val min_val
                max_rate u0) ->
     t_prev c = 0 /\ command_sat_prev c = u0) /\
  (forall Kp Ki Kd Kaw T_C max_val min_val max_rate u0,
     c = PID (PIDController.__init__ Kp Ki Kd Kaw T_C max_val min_val
                max_rate u0) ->
     t_prev c = 0 /\ command_sat_prev c = u0).
Proof.
  intros Ht HTC. split; [|split].
  - destruct (update_returns np_sqrt c t_ measurement setpoint)
      as (c' & command & Hupd); [tauto|].
    exists c', command. split; [exact Hupd|].
    apply update_Ok_inv in Hupd as (_ & _ & [raw ->] & _).
    apply rate_limit_spec_zero.
    assert (t_ - t_prev c == 0) as -> by lra. ring.
  - intros ? ? ? ? ? ? ? ->. split; reflexivity.
  - intros ? ? ? ? ? ? ? ? ? ->. split; reflexivity.
Qed.

Lemma zero_elapsed_returns_previous_witness :
  exists c' command,
    update Qsqrt_approx (STC stc1) 0 0.5 0.9 = Ok (c', command) /\
    command == 170.
Proof.
  apply (proj1 (zero_elapsed_returns_previous Qsqrt_approx (STC stc1)
                  0 0.5 0.9 ltac:(reflexivity) ltac:(discriminate))).
Defined.

(** With [T_C = 0] the first call at time 0 raises instead of returning
    [u0]. *)
Lemma zero_elapsed_raises_without_filter :
  let c := STC (STCController.__init__ 0.001 0.49 0 180 0 0.5 170) in
  0 == t_prev c /\
  update Qsqrt_approx c 0 0.5 0.9 = Err ZeroDivisionError /\
  ~ exists c' command,
      update Qsqrt_approx c 0 0.5 0.9 = Ok (c', command) /\
      command == command_sat_prev c.
Proof.
  split; [reflexivity|]. split; [reflexivity|].
  intros (c' & command & H & _). discriminate H.
Qed.

(** ** Sequences of calls *)

Lemma update_seq_cons_inv {C : Type} (upd : C -> Q -> Q -> Q -> result (C * Q))
    (c : C) (t_ measurement setpoint : Q) (rest : list call)
    (c' : C) (commands : list Q) :
  update_seq upd c ((t_, measurement, setpoint) :: rest) = Ok (c', commands) ->
  exists c1 command commands',
    upd c t_ measurement setpoint = Ok (c1, command) /\
    update_seq upd c1 rest = Ok (c', commands') /\
    commands = command :: commands'.
Proof.
  simpl. intros H.
  apply bind_Ok_inv in H as ([c1 command] & H1 & H).
  apply bind_Ok_inv in H as ([c2 commands'] & H2 & H).
  injection H as <- <-. eauto 6.
Qed.

Lemma update_seq_cons {C : Type} (upd : C -> Q -> Q -> Q -> result (C * Q))
    (c : C) (t_ measurement setpoint : Q) (rest : list call)
    (c1 c' : C) (command : Q) (commands : list Q) :
  upd c t_ measurement setpoint = Ok (c1, command) ->
  update_seq upd c1 rest = Ok (c', commands) ->
  update_seq upd c ((t_, measurement, setpoint) :: rest) =
    Ok (c', command :: commands).
Proof.
  intros H1 H2. cbn [update_seq]. rewrite H1. cbn. rewrite H2. reflexivity.
Qed.

Section Sequences.

Variable np_sqrt : Q -> Q.

(** A sequence of calls returns when no call has a zero elapsed time
    together with a zero filter constant. *)
Lemma update_seq_returns (calls : list call) (c : Controller) :
  no_zero_divisor (T_C c) (t_prev c) calls ->
  exists c' commands,
    update_seq (update np_sqrt) c calls = Ok (c', commands) /\
    length commands = length calls.
Proof.
  revert c. induction calls as [|[[t_ m] s] rest IH]; intros c Hz.
  - exists c, []. split; reflexivity.
  - destruct Hz as [Hz Hrest].
    destruct (update_returns np_sqrt c t_ m s Hz) as (c1 & u1 & Hupd).
    pose proof (update_Ok_inv _ _ _ _ _ _ _ Hupd)
      as (_ & _ & _ & _ & Htp & _ & HTC & _).
    destruct (IH c1) as (c' & us & Hseq & Hlen).
    { by rewrite HTC, Htp. }
    exists c', (u1 :: us). split.
    + by apply (update_seq_cons _ _ _ _ _ _ c1).
    + simpl. by rewrite Hlen.
Qed.

(** The range of the commands is an invariant of the object. *)
Lemma update_seq_range (calls : list call) (c c' : Controller)
    (commands : list Q) :
  min_val c <= command_sat_prev c <= max_val c ->
  steps_nonneg (max_rate c) (t_prev c) calls ->
  update_seq (update np_sqrt) c calls = Ok (c', commands) ->
  Forall (fun u => min_val c <= u <= max_val c) commands.
Proof.
  revert c commands.
  induction calls as [|[[t_ m] s] rest IH]; intros c commands Hr Hs Hseq.
  - injection Hseq as <- <-. constructor.
  - apply update_seq_cons_inv in Hseq
      as (c1 & u1 & us & Hupd & Hseq & ->).
    destruct Hs as [Hstep Hs].
    apply update_Ok_inv in Hupd
      as (_ & _ & [raw Hraw] & Hsat & Htp & _ & _ & Hmax & Hmin & Hrate).
    assert (Hu1 : min_val c <= u1 <= max_val c).
    { rewrite Hraw. apply rate_limit_spec_range; [done | done |].
      apply saturate_spec_range. lra. }
    constructor; [exact Hu1|].
    rewrite <- Hmax, <- Hmin. apply IH; [| |exact Hseq].
    + by rewrite Hmax, Hmin, Hsat.
    + by rewrite Hrate, Htp.
Qed.

End Sequences.

(** ** C5: the commands stay in range *)

(** C5, as the code has it.  For either controller whose previous
    saturated command lies in [[min_val, max_val]] (on a fresh object:
    [min_val <= u0 <= max_val]), and every sequence of calls in which the
    rate-limit step [max_rate*(t - t_prev)] is never negative, every
    returned command lies in [[min_val, max_val]]; the calls do return
    unless one has a zero elapsed time and a zero [T_C]. *)
Theorem commands_in_range (np_sqrt : Q -> Q) (c : Controller)
    (calls : list call) :
  min_val c <= command_sat_prev c <= max_val c ->
  steps_nonneg (max_rate c) (t_prev c) calls ->
  (forall c' commands,
     update_seq (update np_sqrt) c calls = Ok (c', commands) ->
     Forall (fun u => min_val c <= u <= max_val c) commands) /\
  (no_zero_divisor (T_C c) (t_prev c) calls ->
   exists c' commands,
     update_seq (update np_sqrt) c calls = Ok (c', commands) /\
     length commands = length calls /\
     Forall (fun u => min_val c <= u <= max_val c) commands).
Proof.
  intros Hr Hs. split.
  - intros c' commands. by apply update_seq_range.
  - intros Hz.
    destruct (update_seq_returns np_sqrt calls c Hz) as (c' & us & Hseq & Hlen).
    exists c', us. split; [exact Hseq|]. split; [exact Hlen|].
    by apply (update_seq_range np_sqrt calls c c').
Qed.

Lemma commands_in_range_witness :
  exists c' commands,
    update_seq (update Qsqrt_approx) (PID pid1)
      [(0, 0.9, 0.9); (0.1, 0.8, 0.9); (0.2, 1, 0.9)] = Ok (c', commands) /\
    length commands = 3%nat /\
    Forall (fun u => 0 <= u <= 180) commands.
Proof.
  refine (proj2 (commands_in_range Qsqrt_approx (PID pid1)
    [(0, 0.9, 0.9); (0.1, 0.8, 0.9); (0.2, 1, 0.9)] _ _) _).
  - split; vm_compute; discriminate.
  - repeat split; vm_compute; discriminate.
  - repeat split; intros [_ H]; vm_compute in H; discriminate H.
Defined.

(** Call times that go back make the rate-limit step negative, and the
    limiter then pushes the command below [min_val]. *)
Lemma commands_in_range_fails_backwards :
  let c := PID (PIDController.__init__ 1 1 1 1 0.2 180 0 0.5 0) in
  exists c' commands,
    update_seq (update Qsqrt_approx) c [(10, 1, 1); (0, 1, 1)]
      = Ok (c', commands) /\
    ~ Forall (fun u => min_val c <= u <= max_val c) commands.
Proof.
  eexists _, _. split; [vm_compute; reflexivity|].
  intros H. apply Forall_cons_1 in H as [_ H].
  apply Forall_cons_1 in H as [[H _] _].
  vm_compute in H. apply H. reflexivity.
Qed.

(** ** C9: the supertwisting controller with zero gains *)

Lemma Qmult_zero_mid (a b c : Q) : a == 0 -> a * b * c == 0.
Proof. intros ->. ring. Qed.

Lemma Qdiv_zero_num (a d : Q) : a == 0 -> a / d == 0.
Proof. intros ->. unfold Qdiv. ring. Qed.

Section ZeroGains.

Variable np_sqrt : Q -> Q.

(** With zero gains, a call that returns leaves the accumulator where it
    was and returns the limited accumulator. *)
Lemma stc_zero_gains_step (c c' : STCController.t)
    (t_ measurement setpoint command : Q) :
  STCController.W c == 0 -> STCController.lambda_ c == 0 ->
  STCController.update np_sqrt c t_ measurement setpoint = Ok (c', command) ->
  STCController.u c' == STCController.u c /\
  (exists raw, raw == STCController.u c /\
     command =
       rate_limit_spec (STCController.command_sat_prev c)
         (STCController.max_rate c * (t_ - STCController.t_prev c))
         (saturate_spec (STCController.min_val c) (STCController.max_val c)
            raw)) /\
  STCController.command_sat_prev c' = command /\
  STCController.t_prev c' = t_ /\
  STCController.W c' = STCController.W c /\
  STCController.lambda_ c' = STCController.lambda_ c /\
  STCController.T_C c' = STCController.T_C c /\
  STCController.max_val c' = STCController.max_val c /\
  STCController.min_val c' = STCController.min_val c /\
  STCController.max_rate c' = STCController.max_rate c.
Proof.
  intros HW Hl Hupd. unfold STCController.update in Hupd.
  apply bind_Ok_inv in Hupd as (deriv_filt & _ & Hupd).
  injection Hupd as <- <-. simpl.
  split; [rewrite (Qmult_zero_mid _ _ _ HW); ring|].
  split; [|repeat split].
  eexists. split; [|reflexivity].
  rewrite (Qmult_zero_mid _ _ _ HW), (Qmult_zero_mid _ _ _ Hl). ring.
Qed.

Lemma stc_zero_gains_seq (u0 : Q) (calls : list call)
    (c c' : STCController.t) (commands : list Q) :
  STCController.W c == 0 -> STCController.lambda_ c == 0 ->
  STCController.u c == u0 -> STCController.command_sat_prev c == u0 ->
  STCController.min_val c <= u0 <= STCController.max_val c ->
  steps_nonneg (STCController.max_rate c) (STCController.t_prev c) calls ->
  update_seq (STCController.update np_sqrt) c calls = Ok (c', commands) ->
  Forall (fun u => u == u0) commands /\ STCController.u c' == u0.
Proof.
  revert c commands.
  induction calls as [|[[t_ m] s] rest IH];
    intros c commands HW Hl Hu Hprev Hr Hs Hseq.
  - injection Hseq as <- <-. split; [constructor | exact Hu].
  - apply update_seq_cons_inv in Hseq
      as (c1 & u1 & us & Hupd & Hseq & ->).
    destruct Hs as [Hstep Hs].
    apply stc_zero_gains_step in Hupd
      as (Hu1 & (raw & Hraw & Hcmd) & Hsat & Htp & HW1 & Hl1 & _ & Hmax
          & Hmin & Hrate); [|done|done].
    assert (Hu1' : u1 == u0).
    { rewrite Hcmd.
      rewrite saturate_spec_id by lra.
      rewrite rate_limit_spec_id by lra. lra. }
    cut (Forall (fun u => u == u0) us /\ STCController.u c' == u0).
    { intros [Hus Hacc]. split; [by constructor | exact Hacc]. }
    apply (IH c1).
    + by rewrite HW1.
    + by rewrite Hl1.
    + lra.
    + by rewrite Hsat.
    + by rewrite Hmax, Hmin.
    + by rewrite Hrate, Htp.
    + exact Hseq.
Qed.

(** A sequence of calls on the object behind [STC] is a sequence of calls
    of the class. *)
Lemma update_seq_STC (calls : list call) (c : STCController.t)
    (c' : Controller) (commands : list Q) :
  update_seq (update np_sqrt) (STC c) calls = Ok (c', commands) ->
  exists c'', c' = STC c'' /\
    update_seq (STCController.update np_sqrt) c calls = Ok (c'', commands).
Proof.
  revert c commands.
  induction calls as [|[[t_ m] s] rest IH]; intros c commands H.
  - injection H as <- <-. by exists c.
  - apply update_seq_cons_inv in H as (c1 & u1 & us' & Hupd & Hseq & ->).
    simpl in Hupd.
    apply bind_Ok_inv in Hupd as ([c1' u1'] & Hupd & Heq).
    injection Heq as <- <-.
    apply IH in Hseq as (c'' & -> & Hseq).
    exists c''. split; [reflexivity|].
    by apply (update_seq_cons _ _ _ _ _ _ c1').
Qed.

End ZeroGains.

(** With a filter constant that is not zero, no call divides by zero. *)
Lemma no_zero_divisor_filter (T_C t_prev : Q) (calls : list call) :
  ~ T_C == 0 -> no_zero_divisor T_C t_prev calls.
Proof.
  intros HTC. revert t_prev.
  induction calls as [|[[t_ m] s] rest IH]; intros t_prev; [exact I|].
  split; [tauto | apply IH].
Qed.

(** C9, as the code has it.  A supertwisting controller constructed with
    [W = 0], [lambda = 0] and [min_val <= u0 <= max_val], on a sequence of
    calls in which the rate-limit step [max_rate*(t - t_prev)] is never
    negative: with [T_C] not zero every call returns, and returns exactly
    [u0], whatever the measurements and setpoints, and the accumulator is
    still [u0] afterwards; whatever [T_C], the calls of a sequence that
    returns have returned [u0] and left the accumulator at [u0]. *)
Theorem stc_zero_gains_hold (np_sqrt : Q -> Q)
    (T_C max_val min_val max_rate u0 : Q) (calls : list call) :
  let c := STCController.__init__ 0 0 T_C max_val min_val max_rate u0 in
  min_val <= u0 <= max_val ->
  steps_nonneg max_rate 0 calls ->
  (~ T_C == 0 ->
   exists c' commands,
     update_seq (STCController.update np_sqrt) c calls = Ok (c', commands) /\
     length commands = length calls /\
     Forall (fun u => u == u0) commands /\
     STCController.u c' == u0) /\
  (forall c' commands,
     update_seq (STCController.update np_sqrt) c calls = Ok (c', commands) ->
     Forall (fun u => u == u0) commands /\ STCController.u c' == u0).
Proof.
  intros c Hr Hs.
  assert (Hall : forall c' commands,
    update_seq (STCController.update np_sqrt) c calls = Ok (c', commands) ->
    Forall (fun u => u == u0) commands /\ STCController.u c' == u0).
  { intros c' commands.
    apply (stc_zero_gains_seq np_sqrt u0 calls c); try reflexivity; done. }
  split; [|exact Hall].
  intros HTC.
  destruct (update_seq_returns np_sqrt calls (STC c))
    as (c' & us & Hseq & Hlen).
  { by apply no_zero_divisor_filter. }
  apply update_seq_STC in Hseq as (c'' & -> & Hseq).
  exists c'', us. split; [exact Hseq|]. split; [exact Hlen|].
  by apply Hall.
Qed.

Lemma stc_zero_gains_hold_witness :
  exists c' commands,
    update_seq (STCController.update Qsqrt_approx)
      (STCController.__init__ 0 0 0.5 180 0 0.5 170)
      [(0, 0.9, 0.9); (0.1, 0.8, 0.9); (0.2, 1, 0.9)] = Ok (c', commands) /\
    length commands = 3%nat /\
    Forall (fun u => u == 170) commands /\
    STCController.u c' == 170.
Proof.
  refine (proj1 (stc_zero_gains_hold Qsqrt_approx 0.5 180 0 0.5 170
    [(0, 0.9, 0.9); (0.1, 0.8, 0.9); (0.2, 1, 0.9)] _ _) _).
  - split; vm_compute; discriminate.
  - repeat split; vm_compute; discriminate.
  - intros H. vm_compute in H. discriminate H.
Defined.

(** With zero gains the raw command is [u0] at every call, but a call
    time earlier than the previous one makes the rate-limit step negative
    and the limiter moves the command off [u0]. *)
Lemma stc_zero_gains_fails_backwards :
  let c := STCController.__init__ 0 0 0.5 180 0 0.5 77.56 in
  exists c' commands,
    update_seq (STCController.update Qsqrt_approx) c [(10, 1, 1); (0, 1, 1)]
      = Ok (c', commands) /\
    ~ Forall (fun u => u == 77.56) commands.
Proof.
  eexists _, _. split; [vm_compute; reflexivity|].
  intros H. apply Forall_cons_1 in H as [_ H].
  apply Forall_cons_1 in H as [H _].
  vm_compute in H. discriminate H.
Qed.

(** With [T_C = 0] a first call at time 0 has a step that is not negative
    and still returns nothing: it divides by zero. *)
Lemma stc_zero_gains_raises_without_filter :
  let c := STCController.__init__ 0 0 0 180 0 0.5 170 in
  steps_nonneg 0.5 0 [(0, 1, 1)] /\
  update_seq (STCController.update Qsqrt_approx) c [(0, 1, 1)]
    = Err ZeroDivisionError.
Proof.
  split; [|reflexivity].
  split; [vm_compute; discriminate | exact I].
Qed.

(** ** C7: the PID controller at zero tracking error *)

(** What a PID call that returns has computed. *)
Lemma pid_update_Ok_inv (c c' : PIDController.t)
    (t_ measurement setpoint command : Q) :
  PIDController.update c t_ measurement setpoint = Ok (c', command) ->
  let err := setpoint - measurement in
  let T := t_ - PIDController.t_prev c in
  PIDController.integral c' =
    PIDController.integral c + PIDController.Ki c * err * T +
    PIDController.Kaw c *
      (PIDController.command_sat_prev c - PIDController.command_prev c) * T /\
  PIDController.deriv_prev c' =
    (err - PIDController.err_prev c +
     PIDController.T_C c * PIDController.deriv_prev c) /
    denom_spec T (PIDController.T_C c) /\
  PIDController.command_prev c' =
    PIDController.Kp c * err + PIDController.integral c' +
    PIDController.Kd c * PIDController.deriv_prev c' /\
  command =
    rate_limit_spec (PIDController.command_sat_prev c)
      (PIDController.max_rate c * T)
      (saturate_spec (PIDController.min_val c) (PIDController.max_val c)
         (PIDController.command_prev c')) /\
  PIDController.command_sat_prev c' = command /\
  PIDController.err_prev c' = err /\
  PIDController.t_prev c' = t_.
Proof.
  unfold PIDController.update. rewrite denom_spec_eq. intros H.
  apply bind_Ok_inv in H as (deriv_filt & Hdiv & H).
  apply py_div_Ok_inv in Hdiv as [_ ->].
  injection H as <- <-. simpl. repeat split.
Qed.

(** The invariant of a quiet run at zero error: the integral, the stored
    raw command and the stored saturated command are [u0], the stored error
    and derivative are zero. *)
Lemma pid_quiet_seq (u0 : Q) (calls : list call) (c : PIDController.t) :
  PIDController.integral c == u0 ->
  PIDController.err_prev c == 0 ->
  PIDController.deriv_prev c == 0 ->
  PIDController.command_prev c == u0 ->
  PIDController.command_sat_prev c == u0 ->
  quiet_calls c calls ->
  exists c' commands,
    update_seq PIDController.update c calls = Ok (c', commands) /\
    length commands = length calls /\
    PIDController.integral c' == u0 /\
    Forall (fun u => u == u0) commands /\
    steady (PIDController.command_sat_prev c) commands.
Proof.
  revert c.
  induction calls as [|[[t_ m] s] rest IH];
    intros c Hint Herr Hder Hraw Hsat Hq.
  - exists c, []. repeat split; [done | constructor].
  - destruct Hq as
      (Hms & c1 & u1 & Hupd & Hmax & Hmin & Hup & Hdown & Hrest).
    pose proof (pid_update_Ok_inv _ _ _ _ _ _ Hupd)
      as (Hint1 & Hder1 & Hraw1 & Hcmd & Hsat1 & Herr1 & Htp1).
    cbv zeta in *.
    assert (He : s - m == 0) by lra.
    assert (Hint1' : PIDController.integral c1 == u0).
    { assert (PIDController.Ki c * (s - m) * (t_ - PIDController.t_prev c)
              == 0) as A1 by (rewrite He; ring).
      assert (PIDController.Kaw c *
              (PIDController.command_sat_prev c - PIDController.command_prev c)
              * (t_ - PIDController.t_prev c) == 0) as A2.
      { assert (PIDController.command_sat_prev c -
                PIDController.command_prev c == 0) as -> by lra. ring. }
      rewrite Hint1. lra. }
    assert (Hder1' : PIDController.deriv_prev c1 == 0).
    { rewrite Hder1. apply Qdiv_zero_num.
      rewrite Hder. lra. }
    assert (Hraw1' : PIDController.command_prev c1 == u0).
    { rewrite Hraw1, Hder1', He, Hint1'. ring. }
    assert (Hu1 : u1 = PIDController.command_prev c1).
    { rewrite Hcmd.
      rewrite saturate_spec_id by lra.
      rewrite rate_limit_spec_id by lra. reflexivity. }
    destruct (IH c1) as (c' & us & Hseq & Hlen & Hint' & Hall & Hsteady).
    + exact Hint1'.
    + rewrite Herr1. exact He.
    + exact Hder1'.
    + exact Hraw1'.
    + rewrite Hsat1, Hu1. exact Hraw1'.
    + exact Hrest.
    + exists c', (u1 :: us).
      split; [by apply (update_seq_cons _ _ _ _ _ _ c1)|].
      split; [simpl; by rewrite Hlen|].
      split; [exact Hint'|].
      assert (Hu1' : u1 == u0) by (rewrite Hu1; exact Hraw1').
      split; [by constructor|].
      simpl. split; [lra|]. rewrite <- Hsat1. exact Hsteady.
Qed.

(** C7.  On a PID controller fresh from its constructor, in every sequence
    of calls with the measurement equal to the setpoint at every call and
    neither saturation nor rate limiting taking a branch, the integral
    accumulator keeps the value [u0] and every returned command equals the
    command returned before it ([u0] before the first). *)
Theorem pid_zero_error_steady
    (Kp Ki Kd Kaw T_C max_val min_val max_rate u0 : Q) (calls : list call) :
  let c :=
    PIDController.__init__ Kp Ki Kd Kaw T_C max_val min_val max_rate u0 in
  quiet_calls c calls ->
  exists c' commands,
    update_seq PIDController.update c calls = Ok (c', commands) /\
    length commands = length calls /\
    PIDController.integral c' == u0 /\
    Forall (fun u => u == u0) commands /\
    steady u0 commands.
Proof.
  intros c Hq.
  apply (pid_quiet_seq u0 calls c); try reflexivity. exact Hq.
Qed.

Lemma pid_zero_error_steady_witness :
  exists c' commands,
    update_seq PIDController.update pid1
      [(0, 0.9, 0.9); (0.1, 0.9, 0.9); (0.2, 0.8, 0.8)] = Ok (c', commands) /\
    length commands = 3%nat /\
    PIDController.integral c' == 170 /\
    Forall (fun u => u == 170) commands /\
    steady 170 commands.
Proof.
  refine (pid_zero_error_steady _ _ _ _ _ _ _ _ _
    [(0, 0.9, 0.9); (0.1, 0.9, 0.9); (0.2, 0.8, 0.8)] _).
  simpl quiet_calls.
  repeat match goal with
  | |- _ /\ _ => split
  | |- _ == _ => reflexivity
  | |- exists _, _ => eexists _, _; split; [vm_compute; reflexivity|]
  | |- ~ _ => intros H; vm_compute in H; discriminate H
  | |- True => exact I
  end.
Defined.

(** ** C8: the simulation loop *)

Lemma store_Ok_inv {A : Type} (a : list A) (i : nat) (v : A) (a' : list A) :
  store a i v = Ok a' -> (i < length a)%nat /\ a' = <[i:=v]> a.
Proof.
  unfold store. case_decide; [|discriminate]. intros [= <-]. done.
Qed.

Lemma store_Ok {A : Type} (a : list A) (i : nat) (v : A) :
  (i < length a)%nat -> store a i v = Ok (<[i:=v]> a).
Proof. intros H. unfold store. by case_decide. Qed.

Lemma store_row_Ok_inv (a : list (list Q)) (width i : nat) (v : list Q)
    (a' : list (list Q)) :
  store_row a width i v = Ok a' ->
  length v = width /\ (i < length a)%nat /\ a' = <[i:=v]> a.
Proof.
  unfold store_row. case_decide; [|discriminate].
  intros H'. by apply store_Ok_inv in H'.
Qed.

Lemma store_row_Ok (a : list (list Q)) (width i : nat) (v : list Q) :
  length v = width -> (i < length a)%nat ->
  store_row a width i v = Ok (<[i:=v]> a).
Proof.
  intros Hw Hi. unfold store_row. case_decide; [|done]. by apply store_Ok.
Qed.

Lemma euler_step_Ok_inv (x d : list Q) (dt : Q) (x' : list Q) :
  euler_step x d dt = Ok x' ->
  length x = length d /\
  x' = zip_with Qplus x (map (fun v => v * dt) d).
Proof.
  unfold euler_step. case_decide; [|discriminate]. intros [= <-]. done.
Qed.

Lemma euler_step_Ok (x d : list Q) (dt : Q) :
  length x = length d ->
  euler_step x d dt = Ok (zip_with Qplus x (map (fun v => v * dt) d)).
Proof. intros H. unfold euler_step. by case_decide. Qed.

Lemma euler_step_length (x d : list Q) (dt : Q) :
  length x = length d ->
  length (zip_with Qplus x (map (fun v => v * dt) d)) = length x.
Proof.
  intros H. rewrite length_zip_with_l_eq; [done|].
  by rewrite length_map.
Qed.

(** An invariant indexed by the loop counter holds after the loop. *)
Lemma for_each_invariant {S : Type} (P : nat -> S -> Prop)
    (body : nat -> S -> result S) (n start : nat) (s s' : S) :
  P start s ->
  (forall i si si', (start <= i < start + n)%nat ->
     P i si -> body i si = Ok si' -> P (Datatypes.S i) si') ->
  for_each body (seq start n) s = Ok s' ->
  P (start + n)%nat s'.
Proof.
  revert start s. induction n as [|n IH]; intros start s HP Hstep Hloop.
  - simpl in Hloop. injection Hloop as <-. by rewrite Nat.add_0_r.
  - simpl in Hloop. apply bind_Ok_inv in Hloop as (s1 & Hbody & Hloop).
    replace (start + Datatypes.S n)%nat with (Datatypes.S start + n)%nat
      by lia.
    apply (IH (Datatypes.S start) s1).
    + apply (Hstep start s); [lia | done | done].
    + intros i si si' Hi. apply Hstep. lia.
    + exact Hloop.
Qed.

(** The loop returns when each iteration does, given an invariant. *)
Lemma for_each_returns {S : Type} (P : nat -> S -> Prop)
    (body : nat -> S -> result S) (n start : nat) (s : S) :
  P start s ->
  (forall i si, (start <= i < start + n)%nat -> P i si ->
     exists si', body i si = Ok si' /\ P (Datatypes.S i) si') ->
  exists s', for_each body (seq start n) s = Ok s' /\ P (start + n)%nat s'.
Proof.
  revert start s. induction n as [|n IH]; intros start s HP Hstep.
  - exists s. rewrite Nat.add_0_r. split; [reflexivity | done].
  - destruct (Hstep start s) as (s1 & Hbody & HP1); [lia | done |].
    destruct (IH (Datatypes.S start) s1) as (s' & Hloop & HP').
    + exact HP1.
    + intros i si Hi. apply Hstep. lia.
    + exists s'. simpl. rewrite Hbody.
      replace (start + Datatypes.S n)%nat with (Datatypes.S start + n)%nat
        by lia.
      split; [exact Hloop | exact HP'].
Qed.

Section MainLoop.

Variable np_sqrt : Q -> Q.
Variable reactor_sim : Reactor.t.
Variable time ref x0 : list Q.
Variable u0 dt : Q.
Variable controller0 : Controller.

Abbreviation Inv := (loop_inv np_sqrt reactor_sim time ref x0 u0 dt controller0).
Abbreviation body := (loop_body np_sqrt reactor_sim time ref x0 dt).

(** One iteration extends the recorded steps by one. *)
Lemma loop_body_inv (k : nat) (s s' : Sim) (cs : list Controller) :
  Inv k s cs -> body k s = Ok s' ->
  Inv (S k) s' (cs ++ [controller s']).
Proof.
  intros (Hls & Hlc & Hlr & Hlcs & Hc0 & Hck & Hx0 & Hu0 & Htr) Hbody.
  unfold loop_body in Hbody.
  apply bind_Ok_inv in Hbody as (ti & Hti & Hbody).
  apply bind_Ok_inv in Hbody as (xi & Hxi & Hbody).
  apply bind_Ok_inv in Hbody as (ui & Hui & Hbody).
  apply bind_Ok_inv in Hbody as ([dx rho_val] & Hdae & Hbody).
  apply bind_Ok_inv in Hbody as (rho' & Hrho & Hbody).
  apply bind_Ok_inv in Hbody as (x' & Hx' & Hbody).
  apply bind_Ok_inv in Hbody as (st' & Hst & Hbody).
  apply bind_Ok_inv in Hbody as (xi1 & Hxi1 & Hbody).
  apply bind_Ok_inv in Hbody as (y & Hy & Hbody).
  apply bind_Ok_inv in Hbody as (r & Hr & Hbody).
  apply bind_Ok_inv in Hbody as ([c' command] & Hupd & Hbody).
  apply bind_Ok_inv in Hbody as (ctl' & Hctl & Hbody).
  injection Hbody as <-.
  apply index_Ok_inv in Hti, Hxi, Hui, Hxi1, Hy, Hr.
  apply store_Ok_inv in Hrho as [Hkr ->].
  apply euler_step_Ok_inv in Hx' as [Hlen ->].
  apply store_row_Ok_inv in Hst as (Hw & Hks & ->).
  apply store_Ok_inv in Hctl as [Hkc ->].
  rewrite list_lookup_insert_eq in Hxi1 by done.
  injection Hxi1 as <-.
  unfold loop_inv. simpl.
  rewrite !length_insert, length_app. simpl.
  repeat split; try done.
  - lia.
  - rewrite lookup_app_l by lia. done.
  - apply list_lookup_middle. lia.
  - rewrite list_lookup_insert_ne by lia. done.
  - rewrite list_lookup_insert_ne by lia. done.
  - intros i Hi. simpl.
    destruct (decide (i = k)) as [->|Hne].
    + exists ti, xi, ui, (controller s), r, rho_val.
      eexists _, command, c'.
      rewrite (list_lookup_insert_ne _ (k + 1) k) by lia.
      rewrite (list_lookup_insert_ne _ (k + 1) k) by lia.
      rewrite !list_lookup_insert_eq by done.
      rewrite lookup_app_l by lia.
      rewrite (list_lookup_middle cs [] c' (k + 1)) by lia.
      repeat split; try done.
      exists dx, y. repeat split; done.
    + destruct (Htr i) as
        (ti' & xi' & ui' & ci' & r' & rho_i & xi1' & ui1' & ci1' &
         H1 & H2 & H3 & H4 & H5 & H6 & H7 & H8 & H9 & H10); [lia|].
      exists ti', xi', ui', ci', r', rho_i, xi1', ui1', ci1'.
      rewrite !list_lookup_insert_ne by lia.
      rewrite !lookup_app_l by lia.
      repeat split; done.
Qed.

End MainLoop.

Section MainLoopResult.

Variable np_sqrt : Q -> Q.
Variable reactor_sim : Reactor.t.
Variable time ref x0 : list Q.
Variable u0 dt : Q.
Variable controller0 : Controller.

Abbreviation N := (length time - 1)%nat.

(** What the arrays hold when [main_loop] returns. *)
Lemma main_loop_Ok_inv (out : Sim) :
  main_loop np_sqrt reactor_sim time ref x0 u0 dt controller0 = Ok out ->
  (1 <= length time)%nat /\
  final_spec reactor_sim time N out /\
  exists cs,
    loop_inv np_sqrt reactor_sim time ref x0 u0 dt controller0 N out cs.
Proof.
  unfold main_loop. intros H.
  apply bind_Ok_inv in H as (st0 & Hst0 & H).
  apply bind_Ok_inv in H as (ctl0 & Hctl0 & H).
  apply bind_Ok_inv in H as (s & Hloop & H).
  apply bind_Ok_inv in H as (tN & HtN & H).
  apply bind_Ok_inv in H as (xN & HxN & H).
  apply bind_Ok_inv in H as (uN & HuN & H).
  apply bind_Ok_inv in H as ([dState rho_N] & Hdae & H).
  apply bind_Ok_inv in H as (rho' & Hrho & H).
  injection H as <-.
  apply store_row_Ok_inv in Hst0 as (_ & Hnt & ->).
  apply store_Ok_inv in Hctl0 as (_ & ->).
  rewrite length_replicate in Hnt.
  apply (for_each_invariant
           (fun k s => exists cs,
              loop_inv np_sqrt reactor_sim time ref x0 u0 dt controller0
                k s cs)) in Hloop.
  - destruct Hloop as
      (cs & Hls & Hlc & Hlr & Hlcs & Hc0 & Hck & Hx0 & Hu0 & Htr).
    simpl in Hls, Hlc, Hlr, Hlcs, Hc0, Hck, Hx0, Hu0.
    unfold index_last in HtN, HxN, HuN.
    apply index_Ok_inv in HtN, HxN, HuN.
    rewrite Hls in HxN. rewrite Hlc in HuN. rewrite Hlr in Hrho.
    apply store_Ok_inv in Hrho as [Hlt ->].
    split; [lia|]. split.
    + exists tN, xN, uN, dState, rho_N. simpl.
      rewrite list_lookup_insert_eq by done. done.
    + exists cs. unfold loop_inv. simpl.
      rewrite length_insert.
      repeat split; try done.
      intros i Hi.
      destruct (Htr i) as
        (ti' & xi' & ui' & ci' & r' & rho_i & xi1' & ui1' & ci1' &
         H1 & H2 & H3 & H4 & H5 & H6 & H7 & H8 & H9 & H10); [done|].
      exists ti', xi', ui', ci', r', rho_i, xi1', ui1', ci1'. simpl.
      rewrite list_lookup_insert_ne by (simpl in Hi; lia).
      repeat split; done.
  - exists [controller0]. unfold loop_inv. simpl.
    rewrite !length_insert, !length_replicate.
    rewrite !list_lookup_insert_eq by (rewrite length_replicate; lia).
    repeat split; try done.
    intros i Hi. lia.
  - intros i si si' Hi [cs Hinv] Hbody.
    exists (cs ++ [controller si']).
    by apply (loop_body_inv _ _ _ _ _ _ _ _ i si).
Qed.

(** The loop needs: a well-formed reactor, a state of twelve entries, a
    grid with at least one point, a reference value for every grid point,
    and a non-zero filter constant. *)
Lemma main_loop_returns :
  config_ok reactor_sim -> valid_drums (Reactor.num_drums reactor_sim) ->
  length x0 = 12%nat -> (1 <= length time)%nat ->
  (length time <= length ref)%nat ->
  ~ T_C controller0 == 0 ->
  exists out,
    main_loop np_sqrt reactor_sim time ref x0 u0 dt controller0 = Ok out.
Proof.
  intros Hcfg Hnd Hx0 Hnt Href HTC. unfold main_loop.
  rewrite store_row_Ok by (rewrite ?length_replicate; lia).
  rewrite store_Ok by (rewrite length_replicate; lia).
  cbn [mbind result_bind].
  set (s0 := {| state_history := _ |}).
  destruct (for_each_returns
    (fun k s =>
       length (state_history s) = length time /\
       length (control_history s) = length time /\
       length (rho_history s) = length time /\
       (exists xk, state_history s !! k = Some xk /\ length xk = 12%nat) /\
       T_C (controller s) = T_C controller0)
    (loop_body np_sqrt reactor_sim time ref x0 dt) N 0 s0)
    as (s & Hloop & Hls & Hlc & Hlr & (xN & HxN & HlxN) & _).
  - subst s0. simpl.
    rewrite !length_insert, !length_replicate.
    repeat split; try done.
    exists x0. split; [|done].
    apply list_lookup_insert_eq. rewrite length_replicate. lia.
  - intros i si Hi (Hls & Hlc & Hlr & (xi & Hxi & Hlxi) & HTCi).
    unfold loop_body.
    destruct (index_lt time i) as (ti & -> & _); [lia|].
    rewrite (index_Ok _ _ _ Hxi).
    destruct (index_lt (control_history si) i) as (ui & -> & _); [lia|].
    cbn [mbind result_bind].
    destruct (reactor_dae_returns reactor_sim ti xi ui)
      as (dx & rho_val & Hdae); [done | lia | done |].
    rewrite Hdae. cbn [mbind result_bind].
    pose proof (reactor_dae_rho _ _ _ _ _ _ Hdae) as (_ & Hldx & _).
    rewrite store_Ok by lia. cbn [mbind result_bind].
    rewrite euler_step_Ok by lia. cbn [mbind result_bind].
    assert (Hlx' : length (zip_with Qplus xi (map (fun v => v * dt) dx))
                   = 12%nat).
    { rewrite euler_step_length; lia. }
    rewrite store_row_Ok by lia. cbn [mbind result_bind].
    rewrite (index_Ok (<[(i + 1)%nat:=_]> (state_history si)) (i + 1) _
               (list_lookup_insert_eq (state_history si) (i + 1) _
                  ltac:(lia))).
    cbn [mbind result_bind].
    destruct (index_lt (zip_with Qplus xi (map (fun v => v * dt) dx)) 0)
      as (y & -> & _); [lia|].
    destruct (index_lt ref (i + 1)) as (r & -> & _); [lia|].
    cbn [mbind result_bind].
    destruct (update_returns np_sqrt (controller si) ti y r)
      as (c' & command & Hupd).
    { rewrite HTCi. tauto. }
    rewrite Hupd. cbn [mbind result_bind].
    pose proof (update_Ok_inv _ _ _ _ _ _ _ Hupd)
      as (_ & _ & _ & _ & _ & _ & HTC' & _).
    rewrite store_Ok by lia. cbn [mbind result_bind].
    eexists. split; [reflexivity|]. simpl.
    rewrite !length_insert.
    repeat split; try done.
    + eexists. split; [|exact Hlx'].
      replace (S i) with (i + 1)%nat by lia.
      apply list_lookup_insert_eq. lia.
    + congruence.
  - rewrite Hloop. cbn [mbind result_bind].
    simpl in HxN. unfold index_last.
    destruct (index_lt time N) as (tN & -> & _); [lia|].
    rewrite Hls, Hlc, (index_Ok _ _ _ HxN).
    destruct (index_lt (control_history s) N) as (uN & -> & _); [lia|].
    cbn [mbind result_bind].
    destruct (reactor_dae_returns reactor_sim tN xN uN)
      as (dx & rho_val & Hdae); [done | lia | done |].
    rewrite Hdae. cbn [mbind result_bind].
    rewrite store_Ok by lia. cbn [mbind result_bind]. eauto.
Qed.

End MainLoopResult.

(** The time grid: [t_i = i*dt]. *)
Lemma np_arange0_lookup (stop step : Q) (i : nat) (ti : Q) :
  np_arange0 stop step !! i = Some ti ->
  ti = inject_Z (Z.of_nat i) * step.
Proof.
  unfold np_arange0. rewrite list_lookup_fmap.
  destruct (seq 0 (Z.to_nat (Qceiling (stop / step))) !! i) as [j|] eqn:E;
    [|discriminate].
  apply lookup_seq in E as [-> _]. simpl. by intros [= <-].
Qed.

(** The grid of [main]: [T_sim = 6000], [dt = 0.1], 60001 points. *)
Lemma np_arange0_main_length :
  Z.of_nat (length (np_arange0 (6000 + 0.1) 0.1)) = 60001%Z.
Proof. unfold np_arange0. rewrite length_map, length_seq. reflexivity. Qed.

(** C8.  When [main_loop] returns, with [N = len(time) - 1]: the arrays
    have [N + 1] entries and start with [x0] and [u0]; for every step
    [i < N] the recorded values satisfy, in this order,
    [(dState, rho_i) = reactor_dae(t_i, state_i, u_i)],
    [state_{i+1} = state_i + dState*dt] and
    [u_{i+1} = update(t_i, state_{i+1}[0], ref_{i+1})] on the controller
    object left by step [i - 1]; the last reactivity is computed at
    [(t_N, state_N, u_N)] and the returned controller object is the one
    left by step [N - 1].  So the command of a step enters the integration
    of the next one.  The loop does return on a well-formed reactor, a
    state of twelve entries, a non-empty grid, a reference value per grid
    point and a non-zero filter constant. *)
Theorem main_loop_order (np_sqrt : Q -> Q) (reactor_sim : Reactor.t)
    (time ref x0 : list Q) (u0 dt : Q) (controller0 : Controller) :
  let N := (length time - 1)%nat in
  (forall out,
     main_loop np_sqrt reactor_sim time ref x0 u0 dt controller0 = Ok out ->
     exists cs : list Controller,
       length (state_history out) = (N + 1)%nat /\
       length (control_history out) = (N + 1)%nat /\
       length (rho_history out) = (N + 1)%nat /\
       length cs = (N + 1)%nat /\
       state_history out !! 0%nat = Some x0 /\
       control_history out !! 0%nat = Some u0 /\
       cs !! 0%nat = Some controller0 /\
       cs !! N = Some (controller out) /\
       loop_trace np_sqrt reactor_sim time ref dt N out cs /\
       final_spec reactor_sim time N out) /\
  (config_ok reactor_sim -> valid_drums (Reactor.num_drums reactor_sim) ->
   length x0 = 12%nat -> (1 <= length time)%nat ->
   (length time <= length ref)%nat ->
   ~ T_C controller0 == 0 ->
   exists out,
     main_loop np_sqrt reactor_sim time ref x0 u0 dt controller0 = Ok out).
Proof.
  intros N. split.
  - intros out H.
    apply main_loop_Ok_inv in H as (Hnt & Hfinal & cs & Hinv).
    destruct Hinv as (Hls & Hlc & Hlr & Hlcs & Hc0 & Hck & Hx0 & Hu0 & Htr).
    exists cs. subst N. repeat split; try done; lia.
  - apply main_loop_returns.
Qed.

Lemma main_loop_order_witness :
  exists out,
    main_loop Qsqrt_approx reactor1 (np_arange0 (0.2 + 0.1) 0.1)
      [0.9; 0.9; 0.9] (Reactor.x reactor1) 170 0.1 (PID pid1) = Ok out.
Proof.
  refine (proj2 (main_loop_order Qsqrt_approx reactor1
    (np_arange0 (0.2 + 0.1) 0.1) [0.9; 0.9; 0.9] (Reactor.x reactor1)
    170 0.1 (PID pid1)) _ _ _ _ _ _).
  - exact reactor1_config_ok.
  - unfold valid_drums. simpl. tauto.
  - reflexivity.
  - vm_compute. lia.
  - vm_compute. lia.
  - intros H. vm_compute in H. discriminate H.
Defined.

(** * Further properties of [reactor_dae] *)

(** What a call that returns has read and computed. *)
Lemma reactor_dae_Ok_inv (self : Reactor.t) (t_ : Q) (x : list Q) (u : Q)
    (dx : list Q) (rho : Q) :
  Reactor.reactor_dae self t_ x u = Ok (dx, rho) ->
  exists Pi n_r Cr1 Cr2 Cr3 Cr4 Cr5 Cr6 X I Tf Tm Tc,
    Reactor.params self !! "Pi" = Some Pi /\
    x !! 0%nat = Some n_r /\ x !! 1%nat = Some Cr1 /\ x !! 2%nat = Some Cr2 /\
    x !! 3%nat = Some Cr3 /\ x !! 4%nat = Some Cr4 /\ x !! 5%nat = Some Cr5 /\
    x !! 6%nat = Some Cr6 /\ x !! 7%nat = Some X /\ x !! 8%nat = Some I /\
    x !! 9%nat = Some Tf /\ x !! 10%nat = Some Tm /\ x !! 11%nat = Some Tc /\
    has_keys self /\
    ~ Tf0 self - Tm0 self == 0 /\ ~ Tm0 self - Reactor.Tc0 == 0 /\
    dx = dx_of Pi n_r Cr1 Cr2 Cr3 Cr4 Cr5 Cr6 X I Tf Tm Tc
           (Reactor.f_f * Reactor.P_0 / (Tf0 self - Tm0 self))
           (Reactor.P_0 / (Tm0 self - Reactor.Tc0)) rho.
Proof.
  unfold Reactor.reactor_dae. intros H.
  apply bind_Ok_inv in H as (Rho_d0 & HRho & H).
  apply bind_Ok_inv in H as (RPD & HRPD & H).
  apply bind_Ok_inv in H as (Xe0 & HXe0 & H).
  apply bind_Ok_inv in H as (I0 & HI0 & H).
  apply bind_Ok_inv in H as (Pi & HPi & H).
  apply bind_Ok_inv in H as (K_fm & HKfm & H).
  apply bind_Ok_inv in H as (K_mc & HKmc & H).
  apply bind_Ok_inv in H as (n_r & H0 & H).
  apply bind_Ok_inv in H as (Cr1 & H1 & H).
  apply bind_Ok_inv in H as (Cr2 & H2 & H).
  apply bind_Ok_inv in H as (Cr3 & H3 & H).
  apply bind_Ok_inv in H as (Cr4 & H4 & H).
  apply bind_Ok_inv in H as (Cr5 & H5 & H).
  apply bind_Ok_inv in H as (Cr6 & H6 & H).
  apply bind_Ok_inv in H as (X & H7 & H).
  apply bind_Ok_inv in H as (I & H8 & H).
  apply bind_Ok_inv in H as (Tf & H9 & H).
  apply bind_Ok_inv in H as (Tm & H10 & H).
  apply bind_Ok_inv in H as (Tc & H11 & H).
  apply bind_Ok_inv in H as (rho' & _ & H).
  injection H as <- <-.
  apply dict_get_Ok_inv in HRho, HRPD, HXe0, HI0, HPi.
  apply index_Ok_inv in H0, H1, H2, H3, H4, H5, H6, H7, H8, H9, H10, H11.
  apply py_div_Ok_inv in HKfm as [Hfm ->].
  apply py_div_Ok_inv in HKmc as [Hmc ->].
  exists Pi, n_r, Cr1, Cr2, Cr3, Cr4, Cr5, Cr6, X, I, Tf, Tm, Tc.
  unfold has_keys. rewrite HRho, HRPD, HXe0, HI0, HPi.
  repeat split; try done; by eexists.
Qed.

(** X1.  The five keys are read in the order [Rho_d0],
    [Reactivity_per_degree], [Xe0], [I0], [Pi], before anything else: the
    first one missing is the [KeyError] raised, whatever the state, the
    drum count and the other entries. *)
Theorem reactor_dae_missing_key (self : Reactor.t) (t_ : Q) (x : list Q)
    (u : Q) :
  let d := Reactor.params self in
  (d !! "Rho_d0" = None ->
   Reactor.reactor_dae self t_ x u = Err (KeyError "Rho_d0")) /\
  (is_Some (d !! "Rho_d0") -> d !! "Reactivity_per_degree" = None ->
   Reactor.reactor_dae self t_ x u = Err (KeyError "Reactivity_per_degree")) /\
  (is_Some (d !! "Rho_d0") -> is_Some (d !! "Reactivity_per_degree") ->
   d !! "Xe0" = None ->
   Reactor.reactor_dae self t_ x u = Err (KeyError "Xe0")) /\
  (is_Some (d !! "Rho_d0") -> is_Some (d !! "Reactivity_per_degree") ->
   is_Some (d !! "Xe0") -> d !! "I0" = None ->
   Reactor.reactor_dae self t_ x u = Err (KeyError "I0")) /\
  (is_Some (d !! "Rho_d0") -> is_Some (d !! "Reactivity_per_degree") ->
   is_Some (d !! "Xe0") -> is_Some (d !! "I0") -> d !! "Pi" = None ->
   Reactor.reactor_dae self t_ x u = Err (KeyError "Pi")).
Proof.
  intros d. subst d. unfold Reactor.reactor_dae, dict_get.
  repeat split;
    repeat (let v := fresh "v" in let E := fresh "E" in
            intros [v E]; rewrite E; cbn [mbind result_bind]);
    intros ->; reflexivity.
Qed.

Lemma reactor_dae_missing_key_witness :
  Reactor.reactor_dae
    (with_params reactor1 (delete "Xe0" (Reactor.params reactor1)))
    0 (Reactor.x reactor1) 170 = Err (KeyError "Xe0").
Proof.
  apply (proj1 (proj2 (proj2 (reactor_dae_missing_key
    (with_params reactor1 (delete "Xe0" (Reactor.params reactor1)))
    0 (Reactor.x reactor1) 170)))).
  - eexists. vm_compute. reflexivity.
  - eexists. vm_compute. reflexivity.
  - vm_compute. reflexivity.
Defined.

(** X2.  With the five keys present, equal fuel and moderator anchors
    ([Tf0 = Tm0]) or a moderator anchor equal to [Tc0 = 985] make every call
    raise [ZeroDivisionError], before the state is read and before the drum
    count is tested. *)
Theorem reactor_dae_zero_conduction_divisor (self : Reactor.t) (t_ : Q)
    (x : list Q) (u : Q) :
  has_keys self ->
  Tf0 self - Tm0 self == 0 \/ Tm0 self - Reactor.Tc0 == 0 ->
  Reactor.reactor_dae self t_ x u = Err ZeroDivisionError.
Proof.
  intros ([v1 H1] & [v2 H2] & [v3 H3] & [v4 H4] & [v5 H5]) Hz.
  unfold Reactor.reactor_dae.
  rewrite (dict_get_Ok _ _ _ H1), (dict_get_Ok _ _ _ H2),
    (dict_get_Ok _ _ _ H3), (dict_get_Ok _ _ _ H4), (dict_get_Ok _ _ _ H5).
  cbn [mbind result_bind]. fold (Tf0 self) (Tm0 self).
  destruct (Qeq_dec (Tf0 self - Tm0 self) 0) as [Hfm|Hfm].
  - by rewrite (py_div_Err _ _ Hfm).
  - rewrite (py_div_Ok _ _ Hfm). cbn [mbind result_bind].
    destruct Hz as [Hz|Hz]; [contradiction|].
    by rewrite (py_div_Err _ _ Hz).
Qed.

Lemma reactor_dae_zero_conduction_divisor_witness :
  Reactor.reactor_dae
    (with_params reactor1 (<["Tm0" := 985]> (Reactor.params reactor1)))
    0 (Reactor.x reactor1) 170 = Err ZeroDivisionError.
Proof.
  apply reactor_dae_zero_conduction_divisor.
  - repeat split; eexists; vm_compute; reflexivity.
  - right. reflexivity.
Defined.

(** X3.  With the five keys present and non-zero conduction divisors, a
    state of fewer than twelve entries raises [IndexError], also when the
    drum count is unsupported: the state is unpacked before the drum count
    is tested. *)
Theorem reactor_dae_short_state (self : Reactor.t) (t_ : Q) (x : list Q)
    (u : Q) :
  config_ok self -> (length x < 12)%nat ->
  Reactor.reactor_dae self t_ x u = Err IndexError.
Proof.
  intros (H1 & H2 & H3 & H4 & H5 & Hfm & Hmc) Hlen.
  destruct H1 as [v1 H1], H2 as [v2 H2], H3 as [v3 H3], H4 as [v4 H4],
    H5 as [v5 H5].
  unfold Reactor.reactor_dae.
  rewrite (dict_get_Ok _ _ _ H1), (dict_get_Ok _ _ _ H2),
    (dict_get_Ok _ _ _ H3), (dict_get_Ok _ _ _ H4), (dict_get_Ok _ _ _ H5).
  cbn [mbind result_bind]. fold (Tf0 self) (Tm0 self).
  rewrite (py_div_Ok _ _ Hfm), (py_div_Ok _ _ Hmc).
  cbn [mbind result_bind].
  do 12 (destruct x as [|? x]; [reflexivity|]).
  simpl in Hlen. lia.
Qed.

Lemma reactor_dae_short_state_witness :
  Reactor.reactor_dae
    (Reactor.__init__ 3 (Reactor.x reactor1) (Reactor.params reactor1))
    0 (take 11 (Reactor.x reactor1)) 170 = Err IndexError.
Proof.
  apply reactor_dae_short_state.
  - exact reactor1_config_ok.
  - vm_compute. lia.
Defined.

Lemma entry_lookup (a : list Q) (i : nat) (v : Q) :
  a !! i = Some v -> entry a i = v.
Proof. unfold entry. by intros ->. Qed.

(** Lookups after an insertion under a literal key. *)
Ltac lookup_literal :=
  repeat match goal with
  | |- context [<[?k:=?v]> ?m !! ?k'] =>
      first [ rewrite (lookup_insert_ne m k k' v) by discriminate
            | rewrite (lookup_insert_eq m k v) ]
  end.

(** X4.  A dictionary without ["Tf0"] behaves as one with [Tf0 = 1105], and
    one without ["Tm0"] as one with [Tm0 = 1087]: the result of the call,
    value or exception, is the same. *)
Theorem reactor_dae_default_anchors (self : Reactor.t) (t_ : Q) (x : list Q)
    (u : Q) :
  let d := Reactor.params self in
  (d !! "Tf0" = None ->
   Reactor.reactor_dae (with_params self (<["Tf0" := 1105]> d)) t_ x u =
   Reactor.reactor_dae self t_ x u) /\
  (d !! "Tm0" = None ->
   Reactor.reactor_dae (with_params self (<["Tm0" := 1087]> d)) t_ x u =
   Reactor.reactor_dae self t_ x u).
Proof.
  intros d. subst d.
  split; intros H;
    unfold Reactor.reactor_dae, dict_get, dict_get_default, with_params;
    cbn [Reactor.params Reactor.num_drums];
    lookup_literal; rewrite H; reflexivity.
Qed.

Lemma reactor_dae_default_anchors_witness :
  let d := delete "Tf0" (Reactor.params reactor1) in
  Reactor.reactor_dae (with_params (with_params reactor1 d)
                         (<["Tf0" := 1105]> d)) 0 (Reactor.x reactor1) 170 =
  Reactor.reactor_dae (with_params reactor1 d) 0 (Reactor.x reactor1) 170.
Proof.
  intros d.
  apply (proj1 (reactor_dae_default_anchors (with_params reactor1 d) 0
                  (Reactor.x reactor1) 170)).
  vm_compute. reflexivity.
Defined.

(** X5.  The key ["I0"] must be present, but its value is never used: any
    other value under it gives the same result. *)
Theorem reactor_dae_I0_unused (self : Reactor.t) (t_ : Q) (x : list Q)
    (u v : Q) :
  is_Some (Reactor.params self !! "I0") ->
  Reactor.reactor_dae (with_params self (<["I0" := v]> (Reactor.params self)))
    t_ x u =
  Reactor.reactor_dae self t_ x u.
Proof.
  intros [v0 H].
  unfold Reactor.reactor_dae, dict_get, dict_get_default, with_params.
  cbn [Reactor.params Reactor.num_drums].
  lookup_literal. rewrite H.
  destruct (Reactor.params self !! "Rho_d0"); [|reflexivity].
  destruct (Reactor.params self !! "Reactivity_per_degree"); [|reflexivity].
  destruct (Reactor.params self !! "Xe0"); reflexivity.
Qed.

Lemma reactor_dae_I0_unused_witness :
  Reactor.reactor_dae
    (with_params reactor1 (<["I0" := 0]> (Reactor.params reactor1)))
    0 (Reactor.x reactor1) 170 =
  Reactor.reactor_dae reactor1 0 (Reactor.x reactor1) 170.
Proof.
  apply (reactor_dae_I0_unused reactor1).
  eexists. vm_compute. reflexivity.
Defined.

(** X6.  The result depends on the first twelve entries of the state only,
    and not on the time argument: the model is autonomous and ignores what
    follows entry 11. *)
Theorem reactor_dae_first_twelve (self : Reactor.t) (t1 t2 : Q)
    (x1 x2 : list Q) (u : Q) :
  take 12 x1 = take 12 x2 ->
  Reactor.reactor_dae self t1 x1 u = Reactor.reactor_dae self t2 x2 u.
Proof.
  intros H.
  assert (Hi : forall i, (i < 12)%nat -> x1 !! i = x2 !! i).
  { intros i Hi.
    rewrite <- (lookup_take_lt x1 12 i), <- (lookup_take_lt x2 12 i) by lia.
    by rewrite H. }
  unfold Reactor.reactor_dae, index.
  rewrite (Hi 0%nat), (Hi 1%nat), (Hi 2%nat), (Hi 3%nat), (Hi 4%nat),
    (Hi 5%nat), (Hi 6%nat), (Hi 7%nat), (Hi 8%nat), (Hi 9%nat),
    (Hi 10%nat), (Hi 11%nat) by lia.
  reflexivity.
Qed.

Lemma reactor_dae_first_twelve_witness :
  Reactor.reactor_dae reactor1 0 (Reactor.x reactor1 ++ [1; 2]) 170 =
  Reactor.reactor_dae reactor1 5 (Reactor.x reactor1) 170.
Proof.
  apply reactor_dae_first_twelve. reflexivity.
Defined.

(** The one-drum reactor of [main] returns at its initial state. *)
Lemma reactor1_returns (t_ u : Q) :
  exists dx rho,
    Reactor.reactor_dae reactor1 t_ (Reactor.x reactor1) u = Ok (dx, rho).
Proof.
  apply reactor_dae_returns.
  - exact reactor1_config_ok.
  - vm_compute. lia.
  - unfold valid_drums. simpl. tauto.
Defined.

Lemma kinetics_sum (b b1 b2 b3 b4 b5 b6 l e rho n : Q) :
  b1 + b2 + b3 + b4 + b5 + b6 == b + e ->
  (rho - b) / l * n + b1 / l * n + b2 / l * n + b3 / l * n + b4 / l * n +
    b5 / l * n + b6 / l * n == (rho + e) / l * n.
Proof.
  intros H. unfold Qdiv.
  transitivity ((rho - b + (b1 + b2 + b3 + b4 + b5 + b6)) * / l * n);
    [ring|]. rewrite H. ring.
Qed.

(** X7.  In the vector returned, each precursor derivative is
    [Lamda_k*(n_r - Cr_k)].  With all six precursors equal to the power the
    power derivative is [((rho + 1.529e-6)/l)*n_r]: the six group fractions
    add up to 0.004801529, not to [beta = 0.0048]. *)
Theorem reactor_dae_kinetics (self : Reactor.t) (t_ : Q) (x : list Q) (u : Q)
    (dx : list Q) (rho : Q) :
  Reactor.reactor_dae self t_ x u = Ok (dx, rho) ->
  let n_r := entry x 0 in
  entry dx 1 == Reactor.Lamda_1 * (n_r - entry x 1) /\
  entry dx 2 == Reactor.Lamda_2 * (n_r - entry x 2) /\
  entry dx 3 == Reactor.Lamda_3 * (n_r - entry x 3) /\
  entry dx 4 == Reactor.Lamda_4 * (n_r - entry x 4) /\
  entry dx 5 == Reactor.Lamda_5 * (n_r - entry x 5) /\
  entry dx 6 == Reactor.Lamda_6 * (n_r - entry x 6) /\
  Reactor.beta_1 + Reactor.beta_2 + Reactor.beta_3 + Reactor.beta_4 +
    Reactor.beta_5 + Reactor.beta_6 == Reactor.beta + 1.529e-6 /\
  (entry x 1 == n_r -> entry x 2 == n_r -> entry x 3 == n_r ->
   entry x 4 == n_r -> entry x 5 == n_r -> entry x 6 == n_r ->
   entry dx 0 == ((rho + 1.529e-6) / Reactor.l) * n_r).
Proof.
  intros H n_r. subst n_r.
  apply reactor_dae_Ok_inv in H as
    (Pi & n_r & Cr1 & Cr2 & Cr3 & Cr4 & Cr5 & Cr6 & X & I & Tf & Tm & Tc &
     _ & H0 & H1 & H2 & H3 & H4 & H5 & H6 & _ & _ & _ & _ & _ & _ & _ & _ & ->).
  rewrite (entry_lookup _ _ _ H0), (entry_lookup _ _ _ H1),
    (entry_lookup _ _ _ H2), (entry_lookup _ _ _ H3), (entry_lookup _ _ _ H4),
    (entry_lookup _ _ _ H5), (entry_lookup _ _ _ H6).
  unfold entry, dx_of. simpl.
  do 6 (split; [ring|]). split; [reflexivity|].
  intros E1 E2 E3 E4 E5 E6. rewrite E1, E2, E3, E4, E5, E6.
  apply kinetics_sum. reflexivity.
Qed.

Lemma reactor_dae_kinetics_witness :
  exists dx rho,
    Reactor.reactor_dae reactor1 0 (Reactor.x reactor1) 170 = Ok (dx, rho) /\
    entry dx 1 == Reactor.Lamda_1 * (0.9 - 0.9) /\
    entry dx 0 == ((rho + 1.529e-6) / Reactor.l) * 0.9.
Proof.
  destruct (reactor1_returns 0 170) as (dx & rho & H).
  exists dx, rho. split; [exact H|].
  pose proof (reactor_dae_kinetics _ _ _ _ _ _ H) as
    (H1 & _ & _ & _ & _ & _ & _ & H0).
  split; [exact H1|]. apply H0; reflexivity.
Defined.

(** A call that returns was made on a well-formed configuration, a
    supported drum count and a state of at least twelve entries. *)
Lemma reactor_dae_Ok_wf (self : Reactor.t) (t_ : Q) (x : list Q) (u : Q)
    (dx : list Q) (rho : Q) :
  Reactor.reactor_dae self t_ x u = Ok (dx, rho) ->
  config_ok self /\ valid_drums (Reactor.num_drums self) /\
  (12 <= length x)%nat.
Proof.
  intros H.
  pose proof (reactor_dae_rho _ _ _ _ _ _ H) as (Hnd & _ & _).
  apply reactor_dae_Ok_inv in H as
    (Pi & n_r & Cr1 & Cr2 & Cr3 & Cr4 & Cr5 & Cr6 & X & I & Tf & Tm & Tc &
     _ & _ & _ & _ & _ & _ & _ & _ & _ & _ & _ & _ & H11 & Hk & Hfm & Hmc & _).
  apply lookup_lt_Some in H11.
  destruct Hk as (K1 & K2 & K3 & K4 & K5).
  unfold config_ok. repeat split; done.
Qed.

(** X8.  The xenon and iodine values [main] computes, [Xe0] and [I0], are
    the equilibrium of the poison equations for its fission rate [Pi]: with
    xenon [Xe0] at entry 7 and iodine [I0] at entry 8, both derivatives are
    zero. *)
Theorem reactor_dae_poison_equilibrium (self : Reactor.t) (t_ : Q)
    (x : list Q) (u : Q) (dx : list Q) (rho : Q) :
  Reactor.reactor_dae self t_ x u = Ok (dx, rho) ->
  Reactor.params self !! "Pi" = Some Setup.Pi ->
  entry x 7 == Setup.Xe0 -> entry x 8 == Setup.I0 ->
  entry dx 7 == 0 /\ entry dx 8 == 0.
Proof.
  intros H HPi HX HI.
  apply reactor_dae_Ok_inv in H as
    (Pi & n_r & Cr1 & Cr2 & Cr3 & Cr4 & Cr5 & Cr6 & X & I & Tf & Tm & Tc &
     HPi' & _ & _ & _ & _ & _ & _ & _ & H7 & H8 & _ & _ & _ & _ & _ & _ & ->).
  rewrite HPi in HPi'. injection HPi' as <-.
  rewrite (entry_lookup _ _ _ H7) in HX.
  rewrite (entry_lookup _ _ _ H8) in HI.
  unfold entry, dx_of. simpl.
  rewrite HX, HI. split; vm_compute; reflexivity.
Qed.

Lemma reactor_dae_poison_equilibrium_witness :
  let x := <[7%nat := Setup.Xe0]> (<[8%nat := Setup.I0]> (Reactor.x reactor1)) in
  exists dx rho,
    Reactor.reactor_dae reactor1 0 x 170 = Ok (dx, rho) /\
    entry dx 7 == 0 /\ entry dx 8 == 0.
Proof.
  intros x.
  destruct (reactor_dae_returns reactor1 0 x 170) as (dx & rho & H).
  - exact reactor1_config_ok.
  - vm_compute. lia.
  - unfold valid_drums. simpl. tauto.
  - exists dx, rho. split; [exact H|].
    apply (reactor_dae_poison_equilibrium reactor1 0 x 170 dx rho H);
      reflexivity.
Defined.

(** X9.  The initial state [main] builds holds [I0] at entry 7 and [Xe0] at
    entry 8, while [reactor_dae] reads xenon from entry 7 and iodine from
    entry 8.  So on the reactor [main] makes, for each supported drum
    count, the iodine derivative at the initial state is
    [lamda_I*(I0 - Xe0)], which is not zero. *)
Theorem main_initial_poisons (num_drums : Z) (r : Reactor.t) :
  Setup.make_reactor num_drums = Ok r ->
  Reactor.x r !! 7%nat = Some Setup.I0 /\
  Reactor.x r !! 8%nat = Some Setup.Xe0 /\
  forall t_ u dx rho,
    Reactor.reactor_dae r t_ (Reactor.x r) u = Ok (dx, rho) ->
    entry dx 8 == Reactor.lamda_I * (Setup.I0 - Setup.Xe0) /\
    ~ entry dx 8 == 0.
Proof.
  intros Hr.
  assert (Hx : Reactor.x r !! 7%nat = Some Setup.I0 /\
               Reactor.x r !! 8%nat = Some Setup.Xe0 /\
               Reactor.params r !! "Pi" = Some Setup.Pi).
  { unfold Setup.make_reactor, Setup.pow_arr in Hr.
    destruct (num_drums =? 8)%Z eqn:E8;
      [apply Z.eqb_eq in E8; subst; injection Hr as <-; by repeat split|].
    destruct (num_drums =? 4)%Z eqn:E4;
      [apply Z.eqb_eq in E4; subst; injection Hr as <-; by repeat split|].
    destruct (num_drums =? 2)%Z eqn:E2;
      [apply Z.eqb_eq in E2; subst; injection Hr as <-; by repeat split|].
    destruct (num_drums =? 1)%Z eqn:E1;
      [apply Z.eqb_eq in E1; subst; injection Hr as <-; by repeat split|].
    discriminate Hr. }
  destruct Hx as (Hx7 & Hx8 & HPi).
  split; [exact Hx7|]. split; [exact Hx8|].
  intros t_ u dx rho H.
  apply reactor_dae_Ok_inv in H as
    (Pi & n_r & Cr1 & Cr2 & Cr3 & Cr4 & Cr5 & Cr6 & X & I & Tf & Tm & Tc &
     HPi' & _ & _ & _ & _ & _ & _ & _ & _ & H8 & _ & _ & _ & _ & _ & _ & ->).
  rewrite HPi in HPi'. injection HPi' as <-.
  rewrite Hx8 in H8. injection H8 as <-.
  unfold entry, dx_of. simpl.
  split; [vm_compute; reflexivity|].
  intros Hc. vm_compute in Hc. discriminate Hc.
Qed.

Lemma main_initial_poisons_witness :
  Reactor.x reactor1 !! 7%nat = Some Setup.I0 /\
  Reactor.x reactor1 !! 8%nat = Some Setup.Xe0.
Proof.
  pose proof (main_initial_poisons 1 reactor1 ltac:(reflexivity))
    as (H7 & H8 & _).
  split; [exact H7 | exact H8].
Defined.

Lemma fuel_balance_form (k mu a d : Q) :
  ~ a == 0 ->
  k / mu * 1 - k / a / mu * d == k / mu / a * (a - d).
Proof.
  intros Ha. unfold Qdiv.
  transitivity (k * / mu * (a * / a) - k * / a * / mu * d).
  - rewrite Qmult_inv_r by exact Ha. ring.
  - ring.
Qed.

Lemma Qdiv_mult_zero_iff (c a e : Q) :
  ~ c == 0 -> ~ a == 0 -> (c / a * e == 0 <-> e == 0).
Proof.
  intros Hc Ha. split.
  - intros Hz. apply Qmult_integral in Hz as [Hz|Hz]; [|exact Hz].
    exfalso. unfold Qdiv in Hz.
    apply Qmult_integral in Hz as [Hz|Hz]; [contradiction|].
    pose proof (Qmult_inv_r a Ha) as H1. rewrite Hz in H1. lra.
  - intros ->. ring.
Qed.

(** X10.  The conduction coefficients balance the moderator node at full
    power and the anchor temperatures: with [n_r = 1], [Tf = Tf0],
    [Tm = Tm0] and [Tc = Tc0] the moderator derivative is zero.  The fuel
    node, whose conduction term uses [Tf - Tc], is balanced at [n_r = 1]
    exactly when [Tf - Tc = Tf0 - Tm0]. *)
Theorem reactor_dae_thermal_balance (self : Reactor.t) (t_ : Q) (x : list Q)
    (u : Q) (dx : list Q) (rho : Q) :
  Reactor.reactor_dae self t_ x u = Ok (dx, rho) ->
  entry x 0 == 1 ->
  (entry x 9 == Tf0 self -> entry x 10 == Tm0 self ->
   entry x 11 == Reactor.Tc0 -> entry dx 10 == 0) /\
  (entry dx 9 == 0 <-> entry x 9 - entry x 11 == Tf0 self - Tm0 self).
Proof.
  intros H Hn.
  apply reactor_dae_Ok_inv in H as
    (Pi & n_r & Cr1 & Cr2 & Cr3 & Cr4 & Cr5 & Cr6 & X & I & Tf & Tm & Tc &
     _ & H0 & _ & _ & _ & _ & _ & _ & _ & _ & H9 & H10 & H11 & _ & Hfm & Hmc
     & ->).
  rewrite (entry_lookup _ _ _ H0) in Hn.
  rewrite (entry_lookup _ _ _ H9), (entry_lookup _ _ _ H10),
    (entry_lookup _ _ _ H11).
  set (a := Tf0 self - Tm0 self) in *.
  set (b := Tm0 self - Reactor.Tc0) in *.
  assert (Ea : forall c, c / a * a == c) by (intros c; field; exact Hfm).
  assert (Eb : forall c, c / b * b == c) by (intros c; field; exact Hmc).
  split.
  - intros ETf ETm ETc.
    change (entry _ 10) with
      ((1 - Reactor.f_f) * Reactor.P_0 / Reactor.mu_m * n_r +
       (Reactor.f_f * Reactor.P_0 / a * (Tf - Tm) -
        Reactor.P_0 / b * (Tm - Tc)) / Reactor.mu_m).
    assert (Tf - Tm == a) as -> by (subst a; lra).
    assert (Tm - Tc == b) as -> by (subst b; lra).
    rewrite Ea, Eb, Hn. unfold Qdiv. ring.
  - change (entry _ 9) with
      (Reactor.f_f * Reactor.P_0 / Reactor.mu_f * n_r -
       Reactor.f_f * Reactor.P_0 / a / Reactor.mu_f * (Tf - Tc)).
    rewrite Hn, fuel_balance_form by exact Hfm.
    rewrite Qdiv_mult_zero_iff; [lra | | exact Hfm].
    intros Hc. vm_compute in Hc. discriminate Hc.
Qed.

Lemma reactor_dae_thermal_balance_witness :
  let x :=
    <[0%nat := 1]> (<[9%nat := 1105]> (<[10%nat := 1087]>
      (<[11%nat := Reactor.Tc0]> (Reactor.x reactor1)))) in
  exists dx rho,
    Reactor.reactor_dae reactor1 0 x 170 = Ok (dx, rho) /\
    entry dx 10 == 0.
Proof.
  intros x.
  destruct (reactor_dae_returns reactor1 0 x 170) as (dx & rho & H).
  - exact reactor1_config_ok.
  - vm_compute. lia.
  - unfold valid_drums. simpl. tauto.
  - exists dx, rho. split; [exact H|].
    apply (proj1 (reactor_dae_thermal_balance reactor1 0 x 170 dx rho H
                    ltac:(reflexivity))); reflexivity.
Defined.

(** X11.  At a state where the call returns it returns for every drum
    angle and every coolant temperature; the reactivity is affine in the
    drum angle with slope [Reactivity_per_degree], and it does not depend
    on the coolant temperature (entry 11), the coolant coefficient being
    zero. *)
Theorem reactivity_sensitivity (self : Reactor.t) (t_ : Q) (x : list Q)
    (u : Q) (dx : list Q) (rho : Q) :
  Reactor.reactor_dae self t_ x u = Ok (dx, rho) ->
  (forall t' u', exists dx' rho',
     Reactor.reactor_dae self t' x u' = Ok (dx', rho') /\
     rho' - rho ==
       (u' - u) * default 0 (Reactor.params self !! "Reactivity_per_degree"))
  /\
  (forall t' Tc', exists dx' rho',
     Reactor.reactor_dae self t' (<[11%nat := Tc']> x) u = Ok (dx', rho') /\
     rho' == rho).
Proof.
  intros H.
  pose proof (reactor_dae_Ok_wf _ _ _ _ _ _ H) as (Hc & Hnd & Hlen).
  pose proof (reactor_dae_rho _ _ _ _ _ _ H) as (_ & _ & Hrho).
  split.
  - intros t' u'.
    destruct (reactor_dae_returns self t' x u' Hc Hlen Hnd)
      as (dx' & rho' & H').
    exists dx', rho'. split; [exact H'|].
    apply reactor_dae_rho in H' as (_ & _ & Hrho').
    rewrite Hrho, Hrho'. unfold reactivity_spec.
    destruct (anchors self) as [[? ?] ?]. ring.
  - intros t' Tc'.
    destruct (reactor_dae_returns self t' (<[11%nat := Tc']> x) u Hc)
      as (dx' & rho' & H'); [by rewrite length_insert | done |].
    exists dx', rho'. split; [exact H'|].
    apply reactor_dae_rho in H' as (_ & _ & Hrho').
    rewrite Hrho, Hrho'. unfold reactivity_spec.
    rewrite (list_lookup_insert_ne x 11 7), (list_lookup_insert_ne x 11 9),
      (list_lookup_insert_ne x 11 10) by lia.
    destruct (anchors self) as [[? ?] ?].
    unfold Reactor.alpha_c. lra.
Qed.

Lemma reactivity_sensitivity_witness :
  exists dx' rho',
    Reactor.reactor_dae reactor1 0 (<[11%nat := 900]> (Reactor.x reactor1)) 170
      = Ok (dx', rho') /\
    exists dx rho,
      Reactor.reactor_dae reactor1 0 (Reactor.x reactor1) 170 = Ok (dx, rho) /\
      rho' == rho.
Proof.
  destruct (reactor1_returns 0 170) as (dx & rho & H).
  destruct (proj2 (reactivity_sensitivity reactor1 0 (Reactor.x reactor1) 170
                     dx rho H) 0 900) as (dx' & rho' & H' & E).
  exists dx', rho'. split; [exact H'|]. by exists dx, rho.
Defined.

(** * Further properties of the controllers *)

Lemma same_settings_refl (c : Controller) : same_settings c c.
Proof. destruct c; simpl; repeat split. Qed.

Lemma same_settings_trans (c1 c2 c3 : Controller) :
  same_settings c1 c2 -> same_settings c2 c3 -> same_settings c1 c3.
Proof.
  destruct c1, c2, c3; simpl; intuition congruence.
Qed.

Lemma update_same_settings (np_sqrt : Q -> Q) (c c' : Controller)
    (t_ measurement setpoint command : Q) :
  update np_sqrt c t_ measurement setpoint = Ok (c', command) ->
  same_settings c c'.
Proof.
  destruct c as [c|c]; simpl; intros H;
    apply bind_Ok_inv in H as ([c1 u1] & Hupd & H);
    injection H as <- <-;
    [unfold STCController.update in Hupd
    |unfold PIDController.update in Hupd];
    apply bind_Ok_inv in Hupd as (deriv_filt & _ & Hupd);
    injection Hupd as <- <-; simpl; repeat split.
Qed.

(** X12.  Whatever the calls, [update] never changes the class of the
    object, its gains or its limits, and the supertwisting [update] never
    assigns [command_prev]; after a sequence of calls that returns there is
    one command per call and the stored previous time is the time of the
    last call. *)
Theorem update_seq_settings (np_sqrt : Q -> Q) (calls : list call)
    (c c' : Controller) (commands : list Q) :
  update_seq (update np_sqrt) c calls = Ok (c', commands) ->
  same_settings c c' /\
  length commands = length calls /\
  t_prev c' = last_time (t_prev c) calls.
Proof.
  revert c commands.
  induction calls as [|[[t_ m] s] rest IH]; intros c commands H.
  - injection H as <- <-. split; [apply same_settings_refl|]. done.
  - apply update_seq_cons_inv in H as (c1 & u1 & us & Hupd & Hseq & ->).
    apply IH in Hseq as (Hs & Hlen & Ht).
    pose proof (update_same_settings _ _ _ _ _ _ _ Hupd) as Hs1.
    apply update_Ok_inv in Hupd as (_ & _ & _ & _ & Htp & _).
    split; [by apply (same_settings_trans c c1 c')|].
    split; [simpl; by rewrite Hlen|].
    simpl. by rewrite Ht, Htp.
Qed.

Lemma update_seq_settings_witness :
  exists c' commands,
    update_seq (update Qsqrt_approx) (STC stc1)
      [(0, 0.9, 0.9); (0.1, 0.8, 0.9)] = Ok (c', commands) /\
    same_settings (STC stc1) c' /\ t_prev c' = 0.1.
Proof.
  eexists _, _. split; [vm_compute; reflexivity|].
  refine (let H := update_seq_settings Qsqrt_approx
                     [(0, 0.9, 0.9); (0.1, 0.8, 0.9)] (STC stc1) _ _ _ in
          conj (proj1 H) (proj2 (proj2 H))).
  vm_compute. reflexivity.
Defined.

Lemma np_sign_abs (s : Q) : Qabs (np_sign s) <= 1.
Proof.
  unfold np_sign. qcases; apply Qabs_case; intros; lra.
Qed.

(** The accumulator after one supertwisting call. *)
Lemma stc_update_u (np_sqrt : Q -> Q) (c c' : STCController.t)
    (t_ measurement setpoint command : Q) :
  STCController.update np_sqrt c t_ measurement setpoint = Ok (c', command) ->
  (exists s, STCController.u c' =
     STCController.u c +
     STCController.W c * np_sign s * (t_ - STCController.t_prev c)) /\
  STCController.W c' = STCController.W c /\
  STCController.t_prev c' = t_.
Proof.
  unfold STCController.update. intros H.
  apply bind_Ok_inv in H as (deriv_filt & _ & H).
  injection H as <- <-. simpl. repeat split. by eexists.
Qed.

Lemma last_time_ge (calls : list call) (t_prev : Q) :
  times_nondecreasing t_prev calls -> t_prev <= last_time t_prev calls.
Proof.
  revert t_prev. induction calls as [|[[t_ ?] ?] rest IH]; intros t_prev Ht.
  - simpl. lra.
  - destruct Ht as [H1 H2]. simpl. specialize (IH t_ H2). lra.
Qed.

(** X13.  Over calls whose times never go back, the switching accumulator
    of the supertwisting controller moves by at most [|W|] per unit of
    time, whatever the measurements and setpoints; [min_val] and [max_val]
    do not enter: the accumulator itself is not clamped. *)
Theorem stc_accumulator_drift (np_sqrt : Q -> Q) (calls : list call)
    (c c' : STCController.t) (commands : list Q) :
  times_nondecreasing (STCController.t_prev c) calls ->
  update_seq (STCController.update np_sqrt) c calls = Ok (c', commands) ->
  Qabs (STCController.u c' - STCController.u c) <=
  Qabs (STCController.W c) *
    (last_time (STCController.t_prev c) calls - STCController.t_prev c).
Proof.
  revert c commands.
  induction calls as [|[[t_ m] s] rest IH]; intros c commands Ht H.
  - injection H as <- <-. cbn [last_time].
    assert (STCController.u c - STCController.u c == 0) as -> by ring.
    assert (STCController.t_prev c - STCController.t_prev c == 0) as ->
      by ring.
    rewrite Qmult_0_r. vm_compute. discriminate.
  - apply update_seq_cons_inv in H as (c1 & u1 & us & Hupd & Hseq & ->).
    destruct Ht as [Ht0 Ht].
    apply stc_update_u in Hupd as ([s' Hu] & HW & Htp).
    pose proof (last_time_ge rest t_ Ht) as Hlast.
    rewrite <- Htp in Ht.
    specialize (IH c1 us Ht Hseq). rewrite HW, Htp in IH. cbn [last_time].
    set (W := STCController.W c) in *.
    set (T := t_ - STCController.t_prev c).
    assert (HT : 0 <= T) by (subst T; lra).
    assert (Hstep : Qabs (STCController.u c1 - STCController.u c)
                    <= Qabs W * T).
    { rewrite Hu. fold T.
      assert (STCController.u c + W * np_sign s' * T - STCController.u c
              == W * np_sign s' * T) as -> by ring.
      rewrite !Qabs_Qmult, (Qabs_pos T) by exact HT.
      apply Qmult_le_compat_r; [|exact HT].
      rewrite <- (Qmult_1_r (Qabs W)) at 2.
      rewrite (Qmult_comm (Qabs W) (Qabs (np_sign s'))),
        (Qmult_comm (Qabs W) 1).
      apply Qmult_le_compat_r; [apply np_sign_abs | apply Qabs_nonneg]. }
    assert (Htri : Qabs (STCController.u c' - STCController.u c) <=
                   Qabs (STCController.u c' - STCController.u c1) +
                   Qabs (STCController.u c1 - STCController.u c)).
    { assert (STCController.u c' - STCController.u c ==
              (STCController.u c' - STCController.u c1) +
              (STCController.u c1 - STCController.u c)) as -> by ring.
      apply Qabs_triangle. }
    assert (Qabs W * (last_time t_ rest - STCController.t_prev c) ==
            Qabs W * (last_time t_ rest - t_) + Qabs W * T) as ->
      by (subst T; ring).
    lra.
Qed.

Lemma stc_accumulator_drift_witness :
  exists c' commands,
    update_seq (STCController.update Qsqrt_approx) stc1
      [(0, 0.9, 0.9); (1, 0.8, 0.9); (2, 1, 0.9)] = Ok (c', commands) /\
    Qabs (STCController.u c' - 170) <= Qabs 0.49 * (2 - 0).
Proof.
  eexists _, _. split; [vm_compute; reflexivity|].
  refine (stc_accumulator_drift Qsqrt_approx
            [(0, 0.9, 0.9); (1, 0.8, 0.9); (2, 1, 0.9)] stc1 _ _ _ _).
  - repeat split; vm_compute; discriminate.
  - vm_compute. reflexivity.
Defined.

(** X14.  A second call at the time of the call before it returns the
    command that call returned, whatever its measurement and setpoint,
    when [T_C] is not zero. *)
Theorem update_twice_same_time (np_sqrt : Q -> Q) (c c1 : Controller)
    (t_ measurement setpoint command : Q) :
  update np_sqrt c t_ measurement setpoint = Ok (c1, command) ->
  ~ T_C c == 0 ->
  forall measurement' setpoint', exists c2 command',
    update np_sqrt c1 t_ measurement' setpoint' = Ok (c2, command') /\
    command' == command.
Proof.
  intros Hupd HTC m' s'.
  apply update_Ok_inv in Hupd as (_ & _ & _ & Hsat & Htp & _ & HTC1 & _).
  destruct (update_returns np_sqrt c1 t_ m' s') as (c2 & u2 & Hupd2).
  { rewrite HTC1. tauto. }
  exists c2, u2. split; [exact Hupd2|].
  apply update_Ok_inv in Hupd2 as (_ & _ & [raw ->] & _).
  rewrite Hsat, Htp. apply rate_limit_spec_zero.
  assert (t_ - t_ == 0) as -> by ring. ring.
Qed.

Lemma update_twice_same_time_witness :
  exists c1 command c2 command',
    update Qsqrt_approx (PID pid1) 1 0.8 0.9 = Ok (c1, command) /\
    update Qsqrt_approx c1 1 0.5 0.9 = Ok (c2, command') /\
    command' == command.
Proof.
  eexists _, _.
  assert (H : update Qsqrt_approx (PID pid1) 1 0.8 0.9 = Ok _)
    by (vm_compute; reflexivity).
  destruct (update_twice_same_time Qsqrt_approx _ _ _ _ _ _ H
              ltac:(discriminate) 0.5 0.9) as (c2 & u2 & H2 & E).
  exists c2, u2. split; [exact H|]. split; [exact H2 | exact E].
Defined.

(** X15.  With a rate-limit step that is not negative, the command a PID
    call returns lies between the previous saturated command and the
    saturated raw command, so the limiter never overshoots; when the
    saturated raw command is within the step of the previous command it is
    returned unchanged. *)
Theorem pid_command_between (c c' : PIDController.t)
    (t_ measurement setpoint command : Q) :
  PIDController.update c t_ measurement setpoint = Ok (c', command) ->
  let step := PIDController.max_rate c * (t_ - PIDController.t_prev c) in
  let prev := PIDController.command_sat_prev c in
  let sat :=
    saturate_spec (PIDController.min_val c) (PIDController.max_val c)
      (PIDController.command_prev c') in
  0 <= step ->
  Qmin prev sat <= command <= Qmax prev sat /\
  (Qabs (sat - prev) <= step -> command = sat).
Proof.
  intros H step prev sat Hs.
  apply pid_update_Ok_inv in H as (_ & _ & _ & Hcmd & _).
  cbv zeta in Hcmd. fold step prev sat in Hcmd. rewrite Hcmd.
  split.
  - unfold rate_limit_spec.
    destruct (Q.min_spec prev sat) as [[? ->]|[? ->]],
      (Q.max_spec prev sat) as [[? ->]|[? ->]]; qcases; lra.
  - intros Habs. apply rate_limit_spec_id.
    revert Habs. apply Qabs_case; intros; lra.
Qed.

Lemma pid_command_between_witness :
  exists c' command,
    PIDController.update pid1 1 0.8 0.9 = Ok (c', command) /\
    Qmin 170 (saturate_spec 0 180 (PIDController.command_prev c')) <= command
      <= Qmax 170 (saturate_spec 0 180 (PIDController.command_prev c')).
Proof.
  eexists _, _. split; [vm_compute; reflexivity|].
  refine (proj1 (pid_command_between pid1 _ 1 0.8 0.9 _ _ _)).
  - vm_compute. reflexivity.
  - vm_compute. discriminate.
Defined.

(** * Further properties of the simulation loop *)

Section LoopChain.

Variable np_sqrt : Q -> Q.
Variable reactor_sim : Reactor.t.
Variable time ref : list Q.
Variable dt : Q.
Variable controller0 : Controller.

(** The controller object before step [i]: it has the limits of the first
    one and, from the second step on, it remembers the time and the command
    of the step before. *)
Lemma loop_trace_chain (n : nat) (s : Sim) (cs : list Controller) :
  cs !! 0%nat = Some controller0 ->
  loop_trace np_sqrt reactor_sim time ref dt n s cs ->
  forall i, (i <= n)%nat ->
    exists ci, cs !! i = Some ci /\
      min_val ci = min_val controller0 /\
      max_val ci = max_val controller0 /\
      max_rate ci = max_rate controller0 /\
      ((1 <= i)%nat ->
       exists tp up,
         time !! (i - 1)%nat = Some tp /\ t_prev ci = tp /\
         control_history s !! i = Some up /\ command_sat_prev ci = up).
Proof.
  intros Hc0 Htr i. induction i as [|i IH]; intros Hi.
  - exists controller0. repeat split; try done. lia.
  - destruct IH as (ci & Hci & Hmin & Hmax & Hrate & _); [lia|].
    destruct (Htr i) as
      (ti & xi & ui & ci' & r & rho_i & xi1 & ui1 & ci1 &
       Hti & _ & _ & Hci' & _ & _ & _ & Hui1 & Hci1 & Hstep); [lia|].
    rewrite Hci in Hci'. injection Hci' as <-.
    destruct Hstep as (dState & y & _ & _ & _ & _ & Hupd).
    apply update_Ok_inv in Hupd
      as (_ & _ & _ & Hsat & Htp & _ & _ & Hmax1 & Hmin1 & Hrate1).
    exists ci1. replace (S i) with (i + 1)%nat by lia.
    split; [exact Hci1|].
    split; [congruence|]. split; [congruence|]. split; [congruence|].
    intros _. exists ti, ui1.
    replace (i + 1 - 1)%nat with i by lia. done.
Qed.

End LoopChain.

(** The commands recorded for the first [n + 1] grid points are in range. *)
Lemma loop_trace_range (np_sqrt : Q -> Q) (reactor_sim : Reactor.t)
    (time ref : list Q) (u0 dt : Q) (controller0 : Controller) (n : nat)
    (s : Sim) (cs : list Controller) :
  cs !! 0%nat = Some controller0 ->
  control_history s !! 0%nat = Some u0 ->
  loop_trace np_sqrt reactor_sim time ref dt n s cs ->
  grid_nondecreasing time ->
  (forall t0, time !! 0%nat = Some t0 -> t_prev controller0 <= t0) ->
  0 <= max_rate controller0 ->
  min_val controller0 <= u0 <= max_val controller0 ->
  min_val controller0 <= command_sat_prev controller0
    <= max_val controller0 ->
  forall i, (i <= n)%nat ->
    exists ui, control_history s !! i = Some ui /\
      min_val controller0 <= ui <= max_val controller0.
Proof.
  intros Hc0 Hctl0 Htr Hgrid Ht0 Hrate Hu0 Hprev.
  pose proof (loop_trace_chain _ _ _ _ _ _ _ _ _ Hc0 Htr) as Hchain.
  intros i. induction i as [|i IH]; intros Hi.
  - exists u0. done.
  - destruct IH as (ui & Hui & Hrange); [lia|].
    destruct (Htr i) as
      (ti & xi & ui' & ci & r & rho_i & xi1 & ui1 & ci1 &
       Hti & _ & Hui' & Hci & _ & _ & _ & Hui1 & _ & Hstep); [lia|].
    rewrite Hui in Hui'. injection Hui' as <-.
    destruct Hstep as (dState & y & _ & _ & _ & _ & Hupd).
    destruct (Hchain i) as (ci' & Hci' & Hmin & Hmax & Hr & Hmem); [lia|].
    rewrite Hci in Hci'. injection Hci' as <-.
    apply update_Ok_inv in Hupd as (_ & _ & [raw Hraw] & _).
    exists ui1. replace (S i) with (i + 1)%nat by lia.
    split; [exact Hui1|].
    rewrite Hraw, Hmin, Hmax, Hr.
    apply rate_limit_spec_range.
    + apply Qmult_le_0_compat; [exact Hrate|].
      destruct i as [|i].
      * rewrite Hci in Hc0. injection Hc0 as ->.
        specialize (Ht0 ti Hti). lra.
      * destruct Hmem as (tp & up & Htp & -> & _); [lia|].
        replace (S i - 1)%nat with i in Htp by lia.
        specialize (Hgrid i (S i) tp ti ltac:(lia) Htp Hti). lra.
    + destruct i as [|i].
      * rewrite Hci in Hc0. by injection Hc0 as ->.
      * destruct Hmem as (tp & up & _ & _ & Hup & ->); [lia|].
        rewrite Hui in Hup. by injection Hup as <-.
    + apply saturate_spec_range. lra.
Qed.

(** The states recorded for the first [n + 1] grid points have the length
    of the first. *)
Lemma loop_trace_rows (np_sqrt : Q -> Q) (reactor_sim : Reactor.t)
    (time ref x0 : list Q) (dt : Q) (n : nat) (s : Sim)
    (cs : list Controller) :
  state_history s !! 0%nat = Some x0 ->
  loop_trace np_sqrt reactor_sim time ref dt n s cs ->
  forall i, (i <= n)%nat ->
    exists xi, state_history s !! i = Some xi /\ length xi = length x0.
Proof.
  intros Hx0 Htr i. induction i as [|i IH]; intros Hi.
  - by exists x0.
  - destruct IH as (xi & Hxi & Hlen); [lia|].
    destruct (Htr i) as
      (ti & xi' & ui & ci & r & rho_i & xi1 & ui1 & ci1 &
       _ & Hxi' & _ & _ & _ & _ & Hxi1 & _ & _ & Hstep); [lia|].
    rewrite Hxi in Hxi'. injection Hxi' as <-.
    destruct Hstep as (dState & y & _ & Hld & -> & _).
    exists (zip_with Qplus xi (map (fun v => v * dt) dState)).
    replace (S i) with (i + 1)%nat by lia. split; [exact Hxi1|].
    rewrite euler_step_length; [exact Hlen | by symmetry].
Qed.

(** X16.  When [main_loop] returns on a grid that never goes back and does
    not start before the controller's previous time, with [max_rate >= 0]
    and both [u0] and the controller's previous saturated command in
    [[min_val, max_val]], every command it has recorded lies in
    [[min_val, max_val]]. *)
Theorem main_loop_commands_in_range (np_sqrt : Q -> Q)
    (reactor_sim : Reactor.t) (time ref x0 : list Q) (u0 dt : Q)
    (controller0 : Controller) (out : Sim) :
  main_loop np_sqrt reactor_sim time ref x0 u0 dt controller0 = Ok out ->
  grid_nondecreasing time ->
  (forall t0, time !! 0%nat = Some t0 -> t_prev controller0 <= t0) ->
  0 <= max_rate controller0 ->
  min_val controller0 <= u0 <= max_val controller0 ->
  min_val controller0 <= command_sat_prev controller0
    <= max_val controller0 ->
  Forall (fun u => min_val controller0 <= u <= max_val controller0)
    (control_history out).
Proof.
  intros H Hgrid Ht0 Hrate Hu0 Hprev.
  apply main_loop_Ok_inv in H as (Hnt & _ & cs & Hinv).
  destruct Hinv as (_ & Hlc & _ & _ & Hc0 & _ & _ & Hctl0 & Htr).
  apply Forall_lookup. intros i ui Hi.
  destruct (loop_trace_range _ _ _ _ _ _ _ _ _ _ Hc0 Hctl0 Htr Hgrid Ht0
              Hrate Hu0 Hprev i) as (ui' & Hui' & Hrange).
  { apply lookup_lt_Some in Hi. lia. }
  rewrite Hi in Hui'. by injection Hui' as <-.
Qed.

(** The first recorded command and the change between later ones. *)
Lemma loop_trace_rate (np_sqrt : Q -> Q) (reactor_sim : Reactor.t)
    (time ref : list Q) (dt : Q) (controller0 : Controller) (n : nat)
    (s : Sim) (cs : list Controller) :
  cs !! 0%nat = Some controller0 ->
  loop_trace np_sqrt reactor_sim time ref dt n s cs ->
  length (control_history s) = S n ->
  (forall t0 u1, time !! 0%nat = Some t0 -> t0 == t_prev controller0 ->
     control_history s !! 1%nat = Some u1 ->
     u1 == command_sat_prev controller0) /\
  (forall i tp ti ui ui1, (1 <= i)%nat ->
     time !! (i - 1)%nat = Some tp -> time !! i = Some ti ->
     control_history s !! i = Some ui ->
     control_history s !! (i + 1)%nat = Some ui1 ->
     Qabs (ui1 - ui) <= Qabs (max_rate controller0 * (ti - tp))).
Proof.
  intros Hc0 Htr Hlc.
  pose proof (loop_trace_chain _ _ _ _ _ _ _ _ _ Hc0 Htr) as Hchain.
  split.
  - intros t0 u1 Ht0 Heq Hu1.
    assert (Hn : (0 < n)%nat).
    { apply lookup_lt_Some in Hu1. lia. }
    destruct (Htr 0%nat Hn) as
      (ti & xi & ui' & ci & r & rho_i & xi1 & ui1 & ci1 &
       Hti & _ & _ & Hci & _ & _ & _ & Hui1 & _ & Hstep).
    simpl in Hui1. rewrite Hu1 in Hui1. injection Hui1 as <-.
    rewrite Ht0 in Hti. injection Hti as <-.
    rewrite Hc0 in Hci. injection Hci as <-.
    destruct Hstep as (dState & y & _ & _ & _ & _ & Hupd).
    apply update_Ok_inv in Hupd as (_ & _ & [raw ->] & _).
    apply rate_limit_spec_zero.
    assert (t0 - t_prev controller0 == 0) as -> by lra. ring.
  - intros i tp ti ui ui1 Hi Htp Hti Hui Hui1.
    assert (Hn : (i < n)%nat).
    { apply lookup_lt_Some in Hui1. lia. }
    destruct (Htr i Hn) as
      (ti' & xi & ui' & ci & r & rho_i & xi1 & ui1' & ci1 &
       Hti' & _ & _ & Hci & _ & _ & _ & Hui1' & _ & Hstep).
    rewrite Hti in Hti'. injection Hti' as <-.
    rewrite Hui1 in Hui1'. injection Hui1' as <-.
    destruct Hstep as (dState & y & _ & _ & _ & _ & Hupd).
    destruct (Hchain i) as (ci' & Hci' & _ & _ & Hr & Hmem); [lia|].
    rewrite Hci in Hci'. injection Hci' as <-.
    destruct (Hmem Hi) as (tp' & up & Htp' & Htprev & Hup & Hsat).
    rewrite Htp in Htp'. injection Htp' as <-.
    rewrite Hui in Hup. injection Hup as <-.
    apply update_Ok_inv in Hupd as (_ & _ & [raw ->] & _).
    rewrite Hsat, Htprev, Hr. apply rate_limit_spec_abs_gen.
Qed.

(** X17.  When [main_loop] returns on a grid of at least two points whose
    first point is the controller's previous time, the command recorded
    for the second grid point is the controller's previous saturated
    command: the first call of [update] has a zero elapsed time.  From then
    on, consecutive recorded commands differ by at most
    [|max_rate*(t_i - t_{i-1})|]. *)
Theorem main_loop_first_and_rate (np_sqrt : Q -> Q)
    (reactor_sim : Reactor.t) (time ref x0 : list Q) (u0 dt : Q)
    (controller0 : Controller) (out : Sim) :
  main_loop np_sqrt reactor_sim time ref x0 u0 dt controller0 = Ok out ->
  (forall t0 u1, time !! 0%nat = Some t0 -> t0 == t_prev controller0 ->
     control_history out !! 1%nat = Some u1 ->
     u1 == command_sat_prev controller0) /\
  (forall i tp ti ui ui1, (1 <= i)%nat ->
     time !! (i - 1)%nat = Some tp -> time !! i = Some ti ->
     control_history out !! i = Some ui ->
     control_history out !! (i + 1)%nat = Some ui1 ->
     Qabs (ui1 - ui) <= Qabs (max_rate controller0 * (ti - tp))).
Proof.
  intros H.
  apply main_loop_Ok_inv in H as (Hnt & _ & cs & Hinv).
  destruct Hinv as (_ & Hlc & _ & _ & Hc0 & _ & _ & _ & Htr).
  apply (loop_trace_rate _ _ _ _ _ _ _ _ _ Hc0 Htr). lia.
Qed.

(** X18.  When [main_loop] returns, every recorded state has as many
    entries as [x0]; that is at least twelve, and exactly twelve as soon as
    the grid has two points, since the derivative vector has twelve. *)
Theorem main_loop_state_shape (np_sqrt : Q -> Q)
    (reactor_sim : Reactor.t) (time ref x0 : list Q) (u0 dt : Q)
    (controller0 : Controller) (out : Sim) :
  main_loop np_sqrt reactor_sim time ref x0 u0 dt controller0 = Ok out ->
  Forall (fun row => length row = length x0) (state_history out) /\
  (12 <= length x0)%nat /\
  ((2 <= length time)%nat -> length x0 = 12%nat).
Proof.
  intros H.
  apply main_loop_Ok_inv in H as (Hnt & Hfinal & cs & Hinv).
  destruct Hinv as (Hls & _ & _ & _ & _ & _ & Hx0 & _ & Htr).
  set (n := (length time - 1)%nat) in *.
  pose proof (loop_trace_rows _ _ _ _ _ _ _ _ _ Hx0 Htr) as Hall.
  split; [|split].
  - apply Forall_lookup. intros i xi Hi.
    destruct (Hall i) as (xi' & Hxi' & Hlen).
    { apply lookup_lt_Some in Hi. lia. }
    rewrite Hi in Hxi'. by injection Hxi' as <-.
  - destruct Hfinal as (tN & xN & uN & dState & rho_N & _ & HxN & _ & Hdae & _).
    destruct (Hall n) as (xN' & HxN' & Hlen); [lia|].
    rewrite HxN in HxN'. injection HxN' as <-.
    apply reactor_dae_Ok_wf in Hdae as (_ & _ & H12). lia.
  - intros H2.
    destruct (Htr 0%nat) as
      (ti & xi & ui & ci & r & rho_i & xi1 & ui1 & ci1 &
       _ & Hxi & _ & _ & _ & _ & _ & _ & _ & Hstep); [lia|].
    rewrite Hx0 in Hxi. injection Hxi as <-.
    destruct Hstep as (dState & y & Hdae & Hld & _).
    apply reactor_dae_rho in Hdae as (_ & Hdx & _). lia.
Qed.

(** * The time grid and the set-up of [main] *)

Lemma np_arange0_length (stop step : Q) :
  length (np_arange0 stop step) = Z.to_nat (Qceiling (stop / step)).
Proof. unfold np_arange0. by rewrite length_map, length_seq. Qed.

Lemma np_arange0_lookup_lt (stop step : Q) (i : nat) :
  (i < length (np_arange0 stop step))%nat ->
  np_arange0 stop step !! i = Some (inject_Z (Z.of_nat i) * step).
Proof.
  intros Hi. rewrite np_arange0_length in Hi.
  unfold np_arange0. rewrite list_lookup_fmap, lookup_seq_lt by done.
  reflexivity.
Qed.

Lemma np_arange0_nondecreasing (stop step : Q) :
  0 <= step -> grid_nondecreasing (np_arange0 stop step).
Proof.
  intros Hs i j ti tj Hij Hi Hj.
  apply np_arange0_lookup in Hi, Hj. subst ti tj.
  apply Qmult_le_compat_r; [|exact Hs].
  rewrite <- Zle_Qle. lia.
Qed.

Lemma np_arange0_nonempty (T_sim dt : Q) :
  0 < dt -> 0 <= T_sim -> (1 <= length (np_arange0 (T_sim + dt) dt))%nat.
Proof.
  intros Hdt HT. rewrite np_arange0_length.
  assert (H1 : 1 <= (T_sim + dt) / dt).
  { apply Qle_shift_div_l; [exact Hdt | lra]. }
  apply Qceiling_resp_le in H1.
  change (Qceiling 1) with 1%Z in H1. lia.
Qed.

(** X19.  The grid [main] builds with [numpy.arange(0, T_sim + dt, dt)],
    for [dt > 0]: its entries are [i*dt], it starts at 0 and never goes
    back, and every entry is below [T_sim + dt]; when [T_sim] is [n] steps
    long it has [n + 1] points, the last of them [T_sim]. *)
Theorem np_arange0_grid (T_sim dt : Q) :
  0 < dt ->
  let time := np_arange0 (T_sim + dt) dt in
  (forall i ti, time !! i = Some ti ->
     ti = inject_Z (Z.of_nat i) * dt /\ 0 <= ti /\ ti < T_sim + dt) /\
  grid_nondecreasing time /\
  (forall n : nat, T_sim == inject_Z (Z.of_nat n) * dt ->
     length time = (n + 1)%nat /\
     exists tN, time !! n = Some tN /\ tN == T_sim).
Proof.
  intros Hdt time. split; [|split].
  - intros i ti Hi.
    pose proof (lookup_lt_Some _ _ _ Hi) as Hlt.
    apply np_arange0_lookup in Hi. split; [exact Hi|]. subst ti.
    unfold time in Hlt. rewrite np_arange0_length in Hlt.
    assert (H0 : 0 <= inject_Z (Z.of_nat i)).
    { change 0 with (inject_Z 0). rewrite <- Zle_Qle. lia. }
    split; [apply Qmult_le_0_compat; lra|].
    assert (Hc : inject_Z (Z.of_nat i) <=
                 inject_Z (Qceiling ((T_sim + dt) / dt) - 1)).
    { rewrite <- Zle_Qle. lia. }
    pose proof (Qceiling_lt ((T_sim + dt) / dt)) as Hl.
    assert (Hq : inject_Z (Z.of_nat i) < (T_sim + dt) / dt) by lra.
    apply (Qmult_lt_compat_r _ _ dt Hdt) in Hq.
    assert ((T_sim + dt) / dt * dt == T_sim + dt) as E by (field; lra).
    lra.
  - apply np_arange0_nondecreasing. lra.
  - intros n Hn.
    assert (Hlen : length time = (n + 1)%nat).
    { unfold time. rewrite np_arange0_length.
      assert ((T_sim + dt) / dt == inject_Z (Z.of_nat n + 1)) as ->.
      { rewrite inject_Z_plus, Hn. change (inject_Z 1) with 1. field. lra. }
      rewrite Qceiling_Z. lia. }
    split; [exact Hlen|].
    exists (inject_Z (Z.of_nat n) * dt). split; [|by symmetry].
    apply np_arange0_lookup_lt. fold time. lia.
Qed.

Lemma np_arange0_grid_witness :
  length (np_arange0 (0.3 + 0.1) 0.1) = (3 + 1)%nat /\
  exists tN, np_arange0 (0.3 + 0.1) 0.1 !! 3%nat = Some tN /\ tN == 0.3.
Proof.
  apply (proj2 (proj2 (np_arange0_grid 0.3 0.1 ltac:(reflexivity))) 3%nat).
  reflexivity.
Defined.

(** The reactor [main] makes for a supported drum count. *)
Lemma make_reactor_valid (num_drums : Z) :
  valid_drums num_drums ->
  exists r, Setup.make_reactor num_drums = Ok r /\
    Reactor.num_drums r = num_drums /\ config_ok r /\
    length (Reactor.x r) = 12%nat.
Proof.
  intros [-> | [-> | [-> | ->]]]; eexists; (split; [reflexivity|]);
    (split; [reflexivity|]); (split; [|reflexivity]);
    unfold config_ok;
    repeat match goal with
    | |- _ /\ _ => split
    | |- is_Some _ => eexists; vm_compute; reflexivity
    | |- ~ _ => intros Hc; vm_compute in Hc; discriminate Hc
    end.
Qed.

(** The controller [main] makes for a supported drum count. *)
Lemma make_controller_valid (controller_type : string) (num_drums : Z) :
  controller_type = "STC" \/ controller_type = "PID" ->
  valid_drums num_drums ->
  let p := get_drum_params num_drums in
  exists c,
    Setup.make_controller controller_type (Reactivity_per_degree_of p)
      (u0_of p) (W_of p) = Ok c /\
    min_val c = 0 /\ max_val c = 180 /\ 0 <= max_rate c /\
    ~ T_C c == 0 /\ t_prev c = 0 /\ command_sat_prev c = u0_of p /\
    0 <= u0_of p <= 180.
Proof.
  intros [-> | ->] [-> | [-> | [-> | ->]]]; cbv zeta;
    eexists; (split; [reflexivity|]);
    (split; [reflexivity|]); (split; [reflexivity|]);
    (split; [vm_compute; discriminate|]);
    (split; [intros Hc; vm_compute in Hc; discriminate Hc|]);
    (split; [reflexivity|]); (split; [reflexivity|]);
    split; vm_compute; discriminate.
Qed.

Lemma np_arange_Ok (stop step : Q) :
  ~ step == 0 -> np_arange stop step = Ok (np_arange0 stop step).
Proof.
  intros H. unfold np_arange.
  destruct (Qeq_bool step 0) eqn:E; [|reflexivity].
  apply Qeq_bool_iff in E. contradiction.
Qed.

Lemma np_arange_Err (stop step : Q) :
  step == 0 -> np_arange stop step = Err ZeroDivisionError.
Proof.
  intros H. unfold np_arange.
  by rewrite (proj2 (Qeq_bool_iff step 0) H).
Qed.

(** X20.  What [main] raises before any step is simulated.  With [dt = 0]
    the grid cannot be built and the call of [numpy.arange] raises
    [ZeroDivisionError], whatever the drum count and the controller type.
    With [dt] not zero, an unsupported drum count gives the [ValueError] of
    the drum-count chain before the controller type is looked at, and a
    supported drum count with a controller type other than ["STC"] and
    ["PID"] gives the [ValueError] of the controller chain. *)
Theorem main_simulation_rejects (np_sqrt : Q -> Q)
    (np_interp : list Q -> list Q -> list Q -> list Q)
    (controller_type : string) (num_drums : Z) (dt T_sim : Q) :
  (dt == 0 ->
   main_simulation np_sqrt np_interp controller_type num_drums dt T_sim =
     Err ZeroDivisionError) /\
  (~ dt == 0 -> ~ valid_drums num_drums ->
   main_simulation np_sqrt np_interp controller_type num_drums dt T_sim =
     Err (ValueError "Invalid number of drums specified.")) /\
  (~ dt == 0 -> valid_drums num_drums ->
   controller_type <> "STC" -> controller_type <> "PID" ->
   main_simulation np_sqrt np_interp controller_type num_drums dt T_sim =
     Err (ValueError "Invalid controller type.")).
Proof.
  split; [|split].
  - intros Hdt. unfold main_simulation.
    by rewrite (np_arange_Err _ _ Hdt).
  - intros Hdt Hnd. unfold main_simulation, Setup.pow_arr.
    rewrite (np_arange_Ok _ _ Hdt). cbn [mbind result_bind].
    assert ((num_drums =? 8)%Z = false) as -> by (unfold valid_drums in Hnd; lia).
    assert ((num_drums =? 4)%Z = false) as -> by (unfold valid_drums in Hnd; lia).
    assert ((num_drums =? 2)%Z = false) as -> by (unfold valid_drums in Hnd; lia).
    assert ((num_drums =? 1)%Z = false) as -> by (unfold valid_drums in Hnd; lia).
    reflexivity.
  - intros Hdt Hnd Hs Hp.
    apply String.eqb_neq in Hs, Hp.
    unfold main_simulation.
    rewrite (np_arange_Ok _ _ Hdt). cbn [mbind result_bind].
    destruct Hnd as [-> | [-> | [-> | ->]]];
      cbn [Setup.pow_arr Z.eqb Pos.eqb mbind result_bind get_drum_params];
      unfold Setup.make_controller; rewrite Hs, Hp; reflexivity.
Qed.

Lemma main_simulation_rejects_witness :
  main_simulation Qsqrt_approx interp_first "PID" 1 0 6000 =
    Err ZeroDivisionError /\
  main_simulation Qsqrt_approx interp_first "PID" 3 0.1 6000 =
    Err (ValueError "Invalid number of drums specified.") /\
  main_simulation Qsqrt_approx interp_first "LQR" 1 0.1 6000 =
    Err (ValueError "Invalid controller type.").
Proof.
  split; [|split].
  - apply (proj1 (main_simulation_rejects Qsqrt_approx interp_first "PID" 1
                    0 6000)).
    reflexivity.
  - apply (proj1 (proj2 (main_simulation_rejects Qsqrt_approx interp_first
                           "PID" 3 0.1 6000))).
    + discriminate.
    + unfold valid_drums. lia.
  - apply (proj2 (proj2 (main_simulation_rejects Qsqrt_approx interp_first
                           "LQR" 1 0.1 6000))).
    + discriminate.
    + unfold valid_drums. lia.
    + discriminate.
    + discriminate.
Defined.

(** X21.  For each of the four supported drum counts and each of the two
    controller types, with [dt > 0], [T_sim >= 0] and an interpolation that
    returns one value per grid point, [main] simulates every step and
    returns; the arrays have one entry per grid point, the first command is
    the tabulated [u0], every command lies in [[0, 180]] and every state has
    twelve entries. *)
Theorem main_simulation_returns (np_sqrt : Q -> Q)
    (np_interp : list Q -> list Q -> list Q -> list Q)
    (controller_type : string) (num_drums : Z) (dt T_sim : Q) :
  (forall time xp fp, length (np_interp time xp fp) = length time) ->
  controller_type = "STC" \/ controller_type = "PID" ->
  valid_drums num_drums ->
  0 < dt -> 0 <= T_sim ->
  exists out,
    main_simulation np_sqrt np_interp controller_type num_drums dt T_sim
      = Ok out /\
    length (control_history out) = length (np_arange0 (T_sim + dt) dt) /\
    length (state_history out) = length (np_arange0 (T_sim + dt) dt) /\
    length (rho_history out) = length (np_arange0 (T_sim + dt) dt) /\
    control_history out !! 0%nat = Some (u0_of (get_drum_params num_drums)) /\
    Forall (fun u => 0 <= u <= 180) (control_history out) /\
    Forall (fun row => length row = 12%nat) (state_history out).
Proof.
  intros Hinterp Hct Hnd Hdt HT.
  destruct (make_reactor_valid num_drums Hnd) as (r & Hr & _ & Hcfg & Hx).
  destruct (make_controller_valid controller_type num_drums Hct Hnd)
    as (c & Hc & Hmin & Hmax & Hrate & HTC & Htp & Hprev & Hu0).
  cbv zeta in Hc.
  set (time := np_arange0 (T_sim + dt) dt).
  assert (Hpow : exists pow, Setup.pow_arr num_drums = Ok pow).
  { unfold Setup.make_reactor in Hr.
    destruct (Setup.pow_arr num_drums) as [pow|e]; [by exists pow|].
    discriminate Hr. }
  destruct Hpow as (pow & Hpow).
  set (ref := generate_reference np_interp time time_points pow).
  destruct (main_loop_returns np_sqrt r time ref (Reactor.x r)
              (u0_of (get_drum_params num_drums)) dt c) as (out & Hout).
  - exact Hcfg.
  - destruct (make_reactor_valid num_drums Hnd) as (r' & Hr' & Hn & _).
    rewrite Hr in Hr'. injection Hr' as <-. by rewrite Hn.
  - exact Hx.
  - by apply np_arange0_nonempty.
  - unfold ref, generate_reference. by rewrite Hinterp.
  - exact HTC.
  - exists out.
    assert (Hmain : main_simulation np_sqrt np_interp controller_type
                      num_drums dt T_sim = Ok out).
    { unfold main_simulation.
      rewrite np_arange_Ok by lra. cbn [mbind result_bind].
      rewrite Hpow. cbn [mbind result_bind].
      fold time ref.
      unfold Reactivity_per_degree_of, u0_of, W_of in Hc, Hout.
      destruct (get_drum_params num_drums) as [[[Rho RPD] u0] W].
      simpl in Hc, Hout. rewrite Hr. cbn [mbind result_bind].
      rewrite Hc. cbn [mbind result_bind]. exact Hout. }
    split; [exact Hmain|].
    pose proof (main_loop_Ok_inv _ _ _ _ _ _ _ _ _ Hout)
      as (Hnt & Hfinal & cs & Hinv).
    destruct Hinv as (Hls & Hlc & Hlr & _ & Hc0 & _ & Hx0 & Hctl0 & Htr).
    split; [exact Hlc|]. split; [exact Hls|]. split; [exact Hlr|].
    split; [exact Hctl0|]. split.
    + apply Forall_lookup. intros i ui Hi.
      destruct (loop_trace_range np_sqrt r time ref
                  (u0_of (get_drum_params num_drums)) dt c
                  (length time - 1) out cs Hc0 Hctl0 Htr) with (i := i)
        as (ui' & Hui' & Hrange).
      * apply np_arange0_nondecreasing. lra.
      * intros t0 Ht0. apply np_arange0_lookup in Ht0. subst t0.
        rewrite Htp. change (inject_Z (Z.of_nat 0)) with 0. lra.
      * exact Hrate.
      * by rewrite Hmin, Hmax.
      * by rewrite Hmin, Hmax, Hprev.
      * apply lookup_lt_Some in Hi. lia.
      * rewrite Hi in Hui'. injection Hui' as <-.
        by rewrite Hmin, Hmax in Hrange.
    + apply Forall_lookup. intros i xi Hi.
      destruct (loop_trace_rows np_sqrt r time ref (Reactor.x r) dt
                  (length time - 1) out cs Hx0 Htr i) as (xi' & Hxi' & Hlen).
      * apply lookup_lt_Some in Hi. lia.
      * rewrite Hi in Hxi'. injection Hxi' as <-. by rewrite Hlen.
Qed.

Lemma main_simulation_returns_witness :
  exists out,
    main_simulation Qsqrt_approx interp_first "STC" 4 0.1 0.2 = Ok out /\
    Forall (fun u => 0 <= u <= 180) (control_history out).
Proof.
  destruct (main_simulation_returns Qsqrt_approx interp_first "STC" 4 0.1 0.2)
    as (out & H & _ & _ & _ & _ & Hr & _).
  - intros time xp fp. unfold interp_first. by rewrite length_map.
  - by left.
  - unfold valid_drums. lia.
  - reflexivity.
  - vm_compute. discriminate.
  - exists out. split; [exact H | exact Hr].
Defined.

(** A run of three grid points on the one-drum reactor with the PID
    controller of [main]. *)
Lemma run1_returns :
  exists out,
    main_loop Qsqrt_approx reactor1 (np_arange0 (0.2 + 0.1) 0.1)
      [0.9; 0.9; 0.9] (Reactor.x reactor1) 170 0.1 (PID pid1) = Ok out.
Proof.
  apply main_loop_returns.
  - exact reactor1_config_ok.
  - unfold valid_drums. simpl. tauto.
  - reflexivity.
  - vm_compute. lia.
  - vm_compute. lia.
  - intros H. vm_compute in H. discriminate H.
Defined.

Lemma main_loop_commands_in_range_witness :
  exists out,
    main_loop Qsqrt_approx reactor1 (np_arange0 (0.2 + 0.1) 0.1)
      [0.9; 0.9; 0.9] (Reactor.x reactor1) 170 0.1 (PID pid1) = Ok out /\
    Forall (fun u => 0 <= u <= 180) (control_history out).
Proof.
  destruct run1_returns as (out & H). exists out. split; [exact H|].
  refine (main_loop_commands_in_range _ _ _ _ _ _ _ _ _ H _ _ _ _ _).
  - apply np_arange0_nondecreasing. vm_compute. discriminate.
  - intros t0 Ht0. apply np_arange0_lookup in Ht0. subst t0.
    vm_compute. discriminate.
  - vm_compute. discriminate.
  - split; vm_compute; discriminate.
  - split; vm_compute; discriminate.
Defined.

Lemma main_loop_first_and_rate_witness :
  exists out,
    main_loop Qsqrt_approx reactor1 (np_arange0 (0.2 + 0.1) 0.1)
      [0.9; 0.9; 0.9] (Reactor.x reactor1) 170 0.1 (PID pid1) = Ok out /\
    forall u1, control_history out !! 1%nat = Some u1 -> u1 == 170.
Proof.
  destruct run1_returns as (out & H). exists out. split; [exact H|].
  intros u1 Hu1.
  apply (proj1 (main_loop_first_and_rate _ _ _ _ _ _ _ _ _ H)
           (inject_Z 0 * 0.1) u1);
    [vm_compute; reflexivity | vm_compute; reflexivity | exact Hu1].
Defined.

Lemma main_loop_state_shape_witness :
  exists out,
    main_loop Qsqrt_approx reactor1 (np_arange0 (0.2 + 0.1) 0.1)
      [0.9; 0.9; 0.9] (Reactor.x reactor1) 170 0.1 (PID pid1) = Ok out /\
    Forall (fun row => length row = 12%nat) (state_history out).
Proof.
  destruct run1_returns as (out & H). exists out. split; [exact H|].
  exact (proj1 (main_loop_state_shape _ _ _ _ _ _ _ _ _ H)).
Defined.

(** * The drum speed *)

Lemma map_result_Ok {A B : Type} (f : A -> result B) (g : A -> B)
    (l : list A) :
  (forall a, f a = Ok (g a)) -> map_result f l = Ok (map g l).
Proof.
  intros H. induction l as [|a l IH]; [reflexivity|].
  simpl. rewrite H. cbn [mbind result_bind]. rewrite IH. reflexivity.
Qed.

Lemma np_diff_length (a : list Q) : length (np_diff a) = (length a - 1)%nat.
Proof.
  unfold np_diff. rewrite length_zip_with.
  destruct a as [|v a]; cbn [length tail]; lia.
Qed.

Lemma np_diff_lookup (a : list Q) (i : nat) (d : Q) :
  np_diff a !! i = Some d ->
  exists lo hi, a !! i = Some lo /\ a !! (i + 1)%nat = Some hi /\ d = hi - lo.
Proof.
  unfold np_diff. rewrite lookup_zip_with.
  destruct (a !! i) as [lo|] eqn:Elo; [|discriminate]. simpl.
  rewrite lookup_tail.
  replace (S i) with (i + 1)%nat by lia.
  destruct (a !! (i + 1)%nat) as [hi|]; [|discriminate]. simpl.
  intros [= <-]. by exists lo, hi.
Qed.

Lemma drum_speed_Ok (u : list Q) (dt : Q) :
  ~ dt == 0 ->
  drum_speed u dt =
    Ok (match u with
        | [] => []
        | _ :: _ => 0 :: map (fun d => d / dt) (np_diff u)
        end).
Proof.
  intros Hdt. unfold drum_speed.
  rewrite (map_result_Ok _ (fun d => d / dt)).
  - reflexivity.
  - intros d. by apply py_div_Ok.
Qed.

Lemma Qabs_div_le (d dt r : Q) :
  0 < dt -> Qabs d <= r * dt -> Qabs (d / dt) <= r.
Proof.
  intros Hdt H. unfold Qdiv. rewrite Qabs_Qmult.
  rewrite (Qabs_pos (/ dt)) by (apply Qlt_le_weak, Qinv_lt_0_compat, Hdt).
  apply Qle_shift_div_r; [exact Hdt | exact H].
Qed.

(** X22.  On the uniform grid of [main] with [dt > 0], a controller that
    starts at time 0 with [u0] as its previous saturated command and has
    [max_rate >= 0]: the drum speed [main] derives from the recorded
    commands, [du], has one entry per command and never exceeds [max_rate]
    in magnitude. *)
Theorem main_loop_drum_speed (np_sqrt : Q -> Q) (reactor_sim : Reactor.t)
    (stop : Q) (ref x0 : list Q) (u0 dt : Q) (controller0 : Controller)
    (out : Sim) :
  main_loop np_sqrt reactor_sim (np_arange0 stop dt) ref x0 u0 dt controller0
    = Ok out ->
  0 < dt -> 0 <= max_rate controller0 ->
  t_prev controller0 == 0 -> command_sat_prev controller0 == u0 ->
  exists du,
    drum_speed (control_history out) dt = Ok du /\
    length du = length (control_history out) /\
    Forall (fun v => Qabs v <= max_rate controller0) du.
Proof.
  intros H Hdt Hrate Htp Hprev.
  apply main_loop_Ok_inv in H as (Hnt & _ & cs & Hinv).
  destruct Hinv as (_ & Hlc & _ & _ & Hc0 & _ & _ & Hctl0 & Htr).
  set (time := np_arange0 stop dt) in *.
  destruct (loop_trace_rate _ _ _ _ _ _ _ _ _ Hc0 Htr) as [Hfirst Hstep];
    [lia|].
  rewrite drum_speed_Ok by lra.
  destruct (control_history out) as [|v0 us] eqn:Eu; [simpl in Hlc; lia|].
  eexists. split; [reflexivity|].
  split; [simpl; rewrite length_map, np_diff_length; simpl; lia|].
  constructor.
  { simpl. exact Hrate. }
  apply Forall_fmap, Forall_lookup. intros i d Hd. simpl.
  apply np_diff_lookup in Hd as (lo & hi & Hlo & Hhi & ->).
  apply Qabs_div_le; [exact Hdt|].
  assert (Hi1 : (i + 1 < length time)%nat).
  { apply lookup_lt_Some in Hhi. rewrite <- Hlc. exact Hhi. }
  destruct i as [|i].
  - simpl in Hlo. injection Hlo as <-.
    assert (E : hi == command_sat_prev controller0).
    { apply (Hfirst (inject_Z (Z.of_nat 0) * dt)); [| |exact Hhi].
      - apply np_arange0_lookup_lt. fold time. lia.
      - rewrite Htp. change (inject_Z (Z.of_nat 0)) with 0. ring. }
    simpl in Hctl0. injection Hctl0 as ->.
    assert (hi - u0 == 0) as -> by lra.
    change (Qabs 0) with 0. apply Qmult_le_0_compat; lra.
  - eapply Qle_trans.
    + apply (Hstep (S i) (inject_Z (Z.of_nat i) * dt)
               (inject_Z (Z.of_nat (S i)) * dt) lo hi); [lia| | |done|done].
      * replace (S i - 1)%nat with i by lia.
        apply np_arange0_lookup_lt. fold time. lia.
      * apply np_arange0_lookup_lt. fold time. lia.
    + assert (inject_Z (Z.of_nat (S i)) * dt - inject_Z (Z.of_nat i) * dt
              == dt) as ->.
      { rewrite Nat2Z.inj_succ. unfold Z.succ.
        rewrite inject_Z_plus. change (inject_Z 1) with 1. ring. }
      rewrite Qabs_pos; [lra|]. apply Qmult_le_0_compat; lra.
Qed.

Lemma main_loop_drum_speed_witness :
  exists out du,
    main_loop Qsqrt_approx reactor1 (np_arange0 (0.2 + 0.1) 0.1)
      [0.9; 0.9; 0.9] (Reactor.x reactor1) 170 0.1 (PID pid1) = Ok out /\
    drum_speed (control_history out) 0.1 = Ok du /\
    Forall (fun v => Qabs v <= max_rate (PID pid1)) du.
Proof.
  destruct run1_returns as (out & H).
  destruct (main_loop_drum_speed _ _ _ _ _ _ _ _ _ H)
    as (du & Hdu & _ & Hall).
  - reflexivity.
  - vm_compute. discriminate.
  - reflexivity.
  - reflexivity.
  - exists out, du. split; [exact H|]. split; [exact Hdu | exact Hall].
Defined.

Lemma np_sum_range (lo hi : Q) (a : list Q) :
  Forall (fun v => lo <= v <= hi) a ->
  lo * inject_Z (Z.of_nat (length a)) <= np_sum a
    <= hi * inject_Z (Z.of_nat (length a)).
Proof.
  induction 1 as [|v a Hv _ IH].
  - cbn [np_sum foldr length]. change (inject_Z (Z.of_nat 0)) with 0. lra.
  - cbn [np_sum foldr length]. fold (np_sum a).
    rewrite Nat2Z.inj_succ. unfold Z.succ. rewrite inject_Z_plus.
    change (inject_Z 1) with 1. lra.
Qed.

(** The mean of a non-empty array lies between its bounds. *)
Lemma np_mean_range (lo hi : Q) (a : list Q) :
  (0 < length a)%nat ->
  Forall (fun v => lo <= v <= hi) a ->
  exists m, np_mean a = Ok m /\ lo <= m <= hi.
Proof.
  intros Hlen Ha.
  assert (Hn : 0 < inject_Z (Z.of_nat (length a))).
  { change 0 with (inject_Z 0). rewrite <- Zlt_Qlt. lia. }
  exists (np_sum a / inject_Z (Z.of_nat (length a))). split.
  - unfold np_mean. apply py_div_Ok. lra.
  - pose proof (np_sum_range lo hi a Ha) as [H1 H2]. split.
    + apply Qle_shift_div_l; [exact Hn | exact H1].
    + apply Qle_shift_div_r; [exact Hn | exact H2].
Qed.

(** The loop of the moving average: after it, the copy has the bounds of
    the array and differs from it only at the indices the loop has visited. *)
Lemma moving_average_loop (window_size : nat) (du : list Q) (lo hi : Q) :
  Forall (fun v => lo <= v <= hi) du ->
  exists du_filtered,
    moving_average window_size du = Ok du_filtered /\
    length du_filtered = length du /\
    Forall (fun v => lo <= v <= hi) du_filtered /\
    (forall i,
       (i < window_size \/
        window_size + (length du - window_size - window_size) <= i)%nat ->
       du_filtered !! i = du !! i).
Proof.
  intros Hdu. unfold moving_average.
  apply (for_each_returns
    (fun k f =>
       length f = length du /\
       Forall (fun v => lo <= v <= hi) f /\
       (forall i, (i < window_size \/ k <= i)%nat -> f !! i = du !! i))).
  - repeat split; done.
  - intros i f Hi (Hlen & Hall & Hsame).
    destruct (np_mean_range lo hi
                (py_slice du (i - window_size) (i + window_size + 1)))
      as (m & Hm & Hrange).
    + unfold py_slice. rewrite length_take, length_drop. lia.
    + unfold py_slice. by apply Forall_take, Forall_drop.
    + rewrite Hm. cbn [mbind result_bind].
      rewrite store_Ok by lia.
      eexists. split; [reflexivity|].
      rewrite length_insert. split; [exact Hlen|]. split.
      * by apply Forall_insert.
      * intros j Hj. rewrite list_lookup_insert_ne by lia.
        apply Hsame. lia.
Qed.

(** X23.  The moving average of [plot_results] always returns, whatever
    the window and the array; the copy has the length of the array, the
    entries before [window_size] and the last [window_size] ones are those
    of the array, and bounds that hold for every entry of the array hold
    for every entry of the copy. *)
Theorem moving_average_bounded (window_size : nat) (du : list Q)
    (lo hi : Q) :
  Forall (fun v => lo <= v <= hi) du ->
  exists du_filtered,
    moving_average window_size du = Ok du_filtered /\
    length du_filtered = length du /\
    Forall (fun v => lo <= v <= hi) du_filtered /\
    (forall i, (i < window_size \/ length du - window_size <= i)%nat ->
       du_filtered !! i = du !! i).
Proof.
  intros Hdu.
  destruct (moving_average_loop window_size du lo hi Hdu)
    as (f & Hf & Hlen & Hall & Hsame).
  exists f. split; [exact Hf|]. split; [exact Hlen|].
  split; [exact Hall|].
  intros i Hi. apply Hsame. lia.
Qed.

Lemma moving_average_bounded_witness :
  exists du_filtered,
    moving_average 1 [0; 0.3; 0.6; 0.3; 0] = Ok du_filtered /\
    length du_filtered = 5%nat /\
    Forall (fun v => 0 <= v <= 0.6) du_filtered.
Proof.
  destruct (moving_average_bounded 1 [0; 0.3; 0.6; 0.3; 0] 0 0.6)
    as (f & Hf & Hlen & Hall & _).
  - repeat constructor; vm_compute; discriminate.
  - exists f. split; [exact Hf|]. split; [exact Hlen | exact Hall].
Defined.

Lemma drum_speed_bounded (u : list Q) (dt r : Q) :
  0 < dt -> 0 <= r ->
  Forall (fun d => Qabs d <= r * dt) (np_diff u) ->
  exists du,
    drum_speed u dt = Ok du /\ length du = length u /\
    Forall (fun v => - r <= v <= r) du.
Proof.
  intros Hdt Hr Hd. rewrite drum_speed_Ok by lra.
  eexists. split; [reflexivity|].
  destruct u as [|v0 us]; [split; [reflexivity | constructor]|].
  split; [simpl; rewrite length_map, np_diff_length; simpl; lia|].
  constructor; [lra|].
  apply Forall_fmap. eapply Forall_impl; [exact Hd|].
  intros d Habs. simpl.
  apply Qabs_Qle_condition. by apply Qabs_div_le.
Qed.

Lemma py_slice_length {A : Type} (a : list A) (i j : nat) :
  length (py_slice a i j) = Nat.min (j - i) (length a - i).
Proof. unfold py_slice. by rewrite length_take, length_drop. Qed.

(** X24.  On the uniform grid of [main] with [dt > 0] and one command per
    grid point, [plot_results] computes the drum speed with the grid step
    and returns the two series of its speed plot with equal lengths, for
    either controller type; if consecutive commands differ by at most
    [r*dt], every plotted speed is at most [r] in magnitude, filtered or
    not. *)
Theorem plot_drum_speed_bounded (controller_type : string) (stop dt r : Q)
    (u : list Q) :
  0 < dt -> 0 <= r ->
  length u = length (np_arange0 stop dt) ->
  Forall (fun d => Qabs d <= r * dt) (np_diff u) ->
  exists t_plot du_plot,
    plot_drum_speed controller_type (np_arange0 stop dt) u
      = Ok (t_plot, du_plot) /\
    length t_plot = length du_plot /\
    Forall (fun v => Qabs v <= r) du_plot.
Proof.
  intros Hdt Hr Hlen Hd. unfold plot_drum_speed.
  set (time := np_arange0 stop dt) in *.
  assert (Hstep : exists dt',
    (if decide (1 < length time)%nat
     then t1 ← index time 1; t0 ← index time 0; Ok (t1 - t0)
     else Ok 1) = Ok dt' /\ 0 < dt' /\
    Forall (fun d => Qabs d <= r * dt') (np_diff u)).
  { case_decide as H1.
    - exists (inject_Z (Z.of_nat 1) * dt - inject_Z (Z.of_nat 0) * dt).
      rewrite (index_Ok time 1 _ (np_arange0_lookup_lt stop dt 1 H1)).
      rewrite (index_Ok time 0 _
                 (np_arange0_lookup_lt stop dt 0 ltac:(fold time; lia))).
      split; [reflexivity|].
      assert (E : inject_Z (Z.of_nat 1) * dt - inject_Z (Z.of_nat 0) * dt
                  == dt).
      { change (inject_Z (Z.of_nat 1)) with 1.
        change (inject_Z (Z.of_nat 0)) with 0. ring. }
      split; [lra|].
      eapply Forall_impl; [exact Hd|]. intros d Habs. simpl in *.
      by rewrite E.
    - exists 1. split; [reflexivity|]. split; [reflexivity|].
      assert (np_diff u = []) as ->; [|constructor].
      apply nil_length_inv. rewrite np_diff_length. lia. }
  destruct Hstep as (dt' & -> & Hdt' & Hd').
  cbn [mbind result_bind].
  destruct (drum_speed_bounded u dt' r Hdt' Hr Hd') as (du & -> & Hldu & Hdu).
  cbn [mbind result_bind].
  destruct (String.eqb controller_type "STC").
  - destruct (moving_average_loop 30 du (- r) r Hdu)
      as (f & -> & Hlf & Hf & _).
    cbn [mbind result_bind].
    eexists _, _. split; [reflexivity|]. split.
    + unfold slice_100. rewrite !py_slice_length, length_map.
      rewrite Hlf, Hldu, Hlen. reflexivity.
    + unfold slice_100, py_slice.
      apply Forall_take, Forall_drop.
      eapply Forall_impl; [exact Hf|]. intros v Hv. simpl in *.
      by apply Qabs_Qle_condition.
  - eexists _, _. split; [reflexivity|]. split.
    + rewrite length_map. congruence.
    + eapply Forall_impl; [exact Hdu|]. intros v Hv. simpl in *.
      by apply Qabs_Qle_condition.
Qed.

Lemma plot_drum_speed_bounded_witness :
  exists t_plot du_plot,
    plot_drum_speed "PID" (np_arange0 (0.2 + 0.1) 0.1) [170; 170; 169.95]
      = Ok (t_plot, du_plot) /\
    length t_plot = length du_plot /\
    Forall (fun v => Qabs v <= 0.5) du_plot.
Proof.
  apply plot_drum_speed_bounded.
  - reflexivity.
  - vm_compute. discriminate.
  - reflexivity.
  - repeat constructor; vm_compute; discriminate.
Defined.
